(** * PagerMon reader.js: line decoding, fragment reassembly and delivery

    A shallow embedding of [client/reader.js].  The script reads the
    output of multimon-ng line by line, classifies every line as POCSAG,
    FLEX or EAS, extracts an address and a message with regular
    expressions, reassembles fragmented FLEX messages through the global
    object [frag], and posts every accepted message to the PagerMon
    server, retrying failed posts with exponential back-off.

    Layout of the development:
    - [JsString]: strings as sequences of UTF-16 code units and the
      String.prototype methods the script calls;
    - [Regex]: a backtracking matcher with capture groups, following the
      ECMAScript matching order; [Patterns]: the regex literals of the
      script;
    - [Js]: the few JavaScript values the handler manipulates;
    - [Reader]: the line handler, with its effects made explicit;
    - [Sender]: the retrying [sendPage];
    - [View]: the family of a line and the FLEX frame it carries, in the
      words of the design; [Samples]: lines, a configuration and a world
      to run the handler on;
    - the properties of the matcher, of the handler and of the sender. *)

From Stdlib Require Import ZArith NArith Lia String Ascii DecimalString.
From stdpp Require Import base option list gmap.
From Equations Require Import Equations.

Set Default Proof Using "Type".
Local Open Scope N_scope.

(** ** Strings *)

Module JsString.

(** A JavaScript string is a sequence of UTF-16 code units. *)
Abbreviation jschar := N (only parsing).
Abbreviation jsstring := (list N) (only parsing).

(** Literals of the development are written as ASCII strings. *)
Definition U (s : string) : jsstring :=
  map N_of_ascii (list_ascii_of_string s).

(** [s.startsWith(p)]. *)
Fixpoint startsWith (p s : jsstring) : bool :=
  match p, s with
  | [], _ => true
  | _ :: _, [] => false
  | a :: p', b :: s' => (a =? b) && startsWith p' s'
  end.

(** [s.indexOf(p)], as an option. *)
Fixpoint indexOf (p s : jsstring) : option nat :=
  if startsWith p s then Some O
  else match s with
       | [] => None
       | _ :: s' => S <$> indexOf p s'
       end.

(** [s.includes(p)]. *)
Definition includes (p s : jsstring) : bool :=
  match indexOf p s with Some _ => true | None => false end.

(** [s.replace(p, r)] with a string pattern [p] and a replacement [r]
    that holds no [$]: the first occurrence only. *)
Definition replace_str (p r s : jsstring) : jsstring :=
  match indexOf p s with
  | Some i => take i s ++ r ++ drop (i + length p)%nat s
  | None => s
  end.

(** WhiteSpace and LineTerminator code units, the ones [trim] strips. *)
Definition is_space (c : jschar) : bool :=
  ((9 <=? c) && (c <=? 13)) || (c =? 32) || (c =? 160) || (c =? 5760)
  || ((8192 <=? c) && (c <=? 8202)) || (c =? 8232) || (c =? 8233)
  || (c =? 8239) || (c =? 8287) || (c =? 12288) || (c =? 65279).

Fixpoint trimStart (s : jsstring) : jsstring :=
  match s with
  | c :: s' => if is_space c then trimStart s' else s
  | [] => []
  end.

Definition trimEnd (s : jsstring) : jsstring :=
  rev (trimStart (rev s)).

(** [s.trim()]. *)
Definition trim (s : jsstring) : jsstring := trimEnd (trimStart s).

(** [s.padStart(n, c)] for a one-unit filler [c]. *)
Definition padStart (n : nat) (c : jschar) (s : jsstring) : jsstring :=
  replicate (n - length s) c ++ s.

End JsString.
Export JsString.

(** ** Regular expressions *)

Module Regex.

(** The fragment of the ECMAScript pattern language the script uses:
    character classes, concatenation, alternation, greedy and lazy
    iteration, numbered capture groups and the end assertion. *)
Inductive regex : Type :=
| RClass (p : jschar -> bool)
| REmpty
| RSeq (r1 r2 : regex)
| RAlt (r1 r2 : regex)
| RStar (greedy : bool) (r : regex)
| RGroup (i : nat) (r : regex)
| REnd.

Definition captures := nat -> option jsstring.
Definition no_captures : captures := fun _ => None.
Definition set_capture (i : nat) (v : jsstring) (c : captures) : captures :=
  fun j => if Nat.eqb i j then Some v else c j.

(** The iteration [r*] or [r*?] over a matcher [m] for [r]: a greedy
    iteration tries one more round first, a lazy one tries to stop first.
    A round that consumes nothing is rejected, as in ECMAScript, so the
    length of the input bounds the number of rounds. *)
Fixpoint iterate {A} (greedy : bool)
    (m : jsstring -> captures -> (jsstring -> captures -> option A) -> option A)
    (k : jsstring -> captures -> option A)
    (fuel : nat) (s : jsstring) (c : captures) : option A :=
  match fuel with
  | O => k s c
  | S fuel' =>
      let again s1 c1 :=
        if Nat.ltb (length s1) (length s) then iterate greedy m k fuel' s1 c1
        else None in
      if greedy then
        match m s c again with
        | Some a => Some a
        | None => k s c
        end
      else
        match k s c with
        | Some a => Some a
        | None => m s c again
        end
  end.

(** Backtracking matcher in continuation-passing style: [rmatch r s c k]
    matches [r] at the head of [s] and hands the rest of the input and
    the captures to [k]; when [k] fails the next alternative is tried,
    in the order the ECMAScript semantics prescribes. *)
Fixpoint rmatch {A} (r : regex) (s : jsstring) (c : captures)
    (k : jsstring -> captures -> option A) {struct r} : option A :=
  match r with
  | RClass p =>
      match s with
      | x :: s' => if p x then k s' c else None
      | [] => None
      end
  | REmpty => k s c
  | RSeq r1 r2 => rmatch r1 s c (fun s1 c1 => rmatch r2 s1 c1 k)
  | RAlt r1 r2 =>
      match rmatch r1 s c k with
      | Some a => Some a
      | None => rmatch r2 s c k
      end
  | RStar greedy r1 => iterate greedy (rmatch r1) k (length s) s c
  | RGroup i r1 =>
      rmatch r1 s c
        (fun s1 c1 => k s1 (set_capture i (take (length s - length s1) s) c1))
  | REnd =>
      match s with
      | [] => k s c
      | _ :: _ => None
      end
  end.

(** The matches of a pattern, whatever their priority: [matches r s c s'
    c'] when [r] can consume the head of [s] up to [s'] and turn the
    captures [c] into [c']. *)
Inductive matches : regex -> jsstring -> captures -> jsstring -> captures -> Prop :=
| matches_class p x s c :
    p x = true -> matches (RClass p) (x :: s) c s c
| matches_empty s c : matches REmpty s c s c
| matches_seq r1 r2 s c s1 c1 s2 c2 :
    matches r1 s c s1 c1 -> matches r2 s1 c1 s2 c2 ->
    matches (RSeq r1 r2) s c s2 c2
| matches_alt_l r1 r2 s c s1 c1 :
    matches r1 s c s1 c1 -> matches (RAlt r1 r2) s c s1 c1
| matches_alt_r r1 r2 s c s1 c1 :
    matches r2 s c s1 c1 -> matches (RAlt r1 r2) s c s1 c1
| matches_star_stop g r s c : matches (RStar g r) s c s c
| matches_star_more g r s c s1 c1 s2 c2 :
    matches r s c s1 c1 -> (length s1 < length s)%nat ->
    matches (RStar g r) s1 c1 s2 c2 ->
    matches (RStar g r) s c s2 c2
| matches_group i r s c s1 c1 :
    matches r s c s1 c1 ->
    matches (RGroup i r) s c s1 (set_capture i (take (length s - length s1) s) c1)
| matches_end c : matches REnd [] c [] c.

(** The array [String.prototype.match] returns for a regex without the
    [g] flag: the index of the match, the matched text and the groups. *)
Record match_result := {
  index : nat;
  matched : jsstring;
  groups : captures
}.

Definition group (m : match_result) (i : nat) : option jsstring :=
  match i with
  | O => Some (matched m)
  | _ => groups m i
  end.

(** Try the start positions from left to right. *)
Fixpoint exec_from (r : regex) (i : nat) (s : jsstring) : option match_result :=
  match rmatch r s no_captures (fun s1 c1 => Some (s1, c1)) with
  | Some (s1, c1) =>
      Some {| index := i; matched := take (length s - length s1) s; groups := c1 |}
  | None =>
      match s with
      | [] => None
      | _ :: s' => exec_from r (S i) s'
      end
  end.

(** [s.match(r)]; [None] is JavaScript's [null]. *)
Definition exec (r : regex) (s : jsstring) : option match_result :=
  exec_from r O s.

(** [r.test(s)], and the truthiness of [s.match(r)]. *)
Definition test (r : regex) (s : jsstring) : bool :=
  match exec r s with Some _ => true | None => false end.

(** [s.replace(r, rep)] for a regex without the [g] flag. *)
Definition replace (r : regex) (rep s : jsstring) : jsstring :=
  match exec r s with
  | Some m => take (index m) s ++ rep ++ drop (index m + length (matched m))%nat s
  | None => s
  end.

(** [s.replace(r, rep)] for a regex with the [g] flag.  After an empty
    match the search resumes one unit further. *)
Fixpoint replace_all_fuel (fuel : nat) (r : regex) (rep s : jsstring) : jsstring :=
  match fuel with
  | O => s
  | S fuel' =>
      match exec r s with
      | None => s
      | Some m =>
          let after := drop (index m + length (matched m))%nat s in
          match matched m, after with
          | [], [] => take (index m) s ++ rep
          | [], x :: after' =>
              take (index m) s ++ rep ++ x :: replace_all_fuel fuel' r rep after'
          | _ :: _, _ =>
              take (index m) s ++ rep ++ replace_all_fuel fuel' r rep after
          end
      end
  end.

Definition replace_all (r : regex) (rep s : jsstring) : jsstring :=
  replace_all_fuel (S (length s)) r rep s.

(** *** Pattern syntax *)

Definition chr (a : ascii) : regex := RClass (N.eqb (N_of_ascii a)).

(** A literal run of characters. *)
Fixpoint lit_list (l : list ascii) : regex :=
  match l with
  | [] => REmpty
  | [a] => chr a
  | a :: l' => RSeq (chr a) (lit_list l')
  end.
Definition lit (s : string) : regex := lit_list (list_ascii_of_string s).

(** [[abc]]: one of the characters of [s]. *)
Definition one_of (s : string) : regex :=
  RClass (fun c => existsb (N.eqb c) (U s)).

Definition is_digit (c : jschar) : bool := (48 <=? c) && (c <=? 57).
Definition is_upper (c : jschar) : bool := (65 <=? c) && (c <=? 90).
Definition is_lower (c : jschar) : bool := (97 <=? c) && (c <=? 122).
Definition is_word (c : jschar) : bool :=
  is_digit c || is_upper c || is_lower c || (c =? 95).
Definition is_line_terminator (c : jschar) : bool :=
  (c =? 10) || (c =? 13) || (c =? 8232) || (c =? 8233).

(** [\d], [\w], [.] and [[A-Za-z]]. *)
Definition digit : regex := RClass is_digit.
Definition word : regex := RClass is_word.
Definition dot : regex := RClass (fun c => negb (is_line_terminator c)).
Definition letter : regex := RClass (fun c => is_upper c || is_lower c).

Definition star (r : regex) : regex := RStar true r.
Definition star_lazy (r : regex) : regex := RStar false r.
Definition plus (r : regex) : regex := RSeq r (RStar true r).
Definition opt (r : regex) : regex := RAlt r REmpty.

(** [r{n}]. *)
Fixpoint times (n : nat) (r : regex) : regex :=
  match n with
  | O => REmpty
  | 1%nat => r
  | S n' => RSeq r (times n' r)
  end.

Fixpoint seq (rs : list regex) : regex :=
  match rs with
  | [] => REmpty
  | [r] => r
  | r :: rs' => RSeq r (seq rs')
  end.

End Regex.
Export Regex.

(** ** The regex literals of reader.js *)

Module Patterns.

(** [/POCSAG(\d+): Address: /], the test of the POCSAG branch. *)
Definition POCSAG_TEST_REGEX : regex :=
  seq [lit "POCSAG"; RGroup 1 (plus digit); lit ": Address: "].

(** [/POCSAG(\d+): Address:(.*?)Function/] *)
Definition POCSAG_ADDRESS_REGEX : regex :=
  seq [lit "POCSAG"; RGroup 1 (plus digit); lit ": Address:";
       RGroup 2 (star_lazy dot); lit "Function"].

(** [/POCSAG(\d+): Address:(.*?)Function: (\d)/] *)
Definition POCSAG_FUNCTION_REGEX : regex :=
  seq [lit "POCSAG"; RGroup 1 (plus digit); lit ": Address:";
       RGroup 2 (star_lazy dot); lit "Function: "; RGroup 3 digit].

(** [/FLEX[:|] ?.*?[\[|](\d*?)[\]| ]/] *)
Definition FLEX_ADDRESS_REGEX : regex :=
  seq [lit "FLEX"; one_of ":|"; opt (chr " "); star_lazy dot; one_of "[|";
       RGroup 1 (star_lazy digit); one_of "]| "].

(** [/FLEX[:|].*[|\[][0-9 ]*[|\]] ?...[ |](.+)/] *)
Definition FLEX_MESSAGE_REGEX : regex :=
  seq [lit "FLEX"; one_of ":|"; star dot; one_of "|[";
       star (RClass (fun c => is_digit c || (c =? 32))); one_of "|]";
       opt (chr " "); dot; dot; dot; one_of " |"; RGroup 1 (plus dot)].

(** [/([ |]ALN[ |]|[ |]GPN[ |]|[ |]NUM[ |])/] *)
Definition ALN_GPN_NUM_REGEX : regex :=
  RGroup 1
    (RAlt (seq [one_of " |"; lit "ALN"; one_of " |"])
       (RAlt (seq [one_of " |"; lit "GPN"; one_of " |"])
          (seq [one_of " |"; lit "NUM"; one_of " |"]))).

(** [/(EAS[:|]|ZCZC-)/] *)
Definition EAS_REGEX : regex :=
  RGroup 1 (RAlt (seq [lit "EAS"; one_of ":|"]) (lit "ZCZC-")).

(** [/Alpha:(.*?)$/] and [/Numeric:(.*?)$/] *)
Definition ALPHA_REGEX : regex :=
  seq [lit "Alpha:"; RGroup 1 (star_lazy dot); REnd].
Definition NUMERIC_REGEX : regex :=
  seq [lit "Numeric:"; RGroup 1 (star_lazy dot); REnd].

(** [/\d{2} \w+ \d{4} \d{2}:\d{2}:\d{2}/] *)
Definition LONG_DATE_REGEX : regex :=
  seq [times 2 digit; chr " "; plus word; chr " "; times 4 digit; chr " ";
       times 2 digit; chr ":"; times 2 digit; chr ":"; times 2 digit].

(** [/\d+-\d+-\d+ \d{2}:\d+:\d{2}/], the second Alpha pattern
    (its minutes are [\d+]). *)
Definition ISO_DATE_ALPHA_REGEX : regex :=
  seq [plus digit; chr "-"; plus digit; chr "-"; plus digit; chr " ";
       times 2 digit; chr ":"; plus digit; chr ":"; times 2 digit].

(** [/\d+-\d+-\d+ \d{2}:\d{2}:\d{2}/], the second FLEX pattern without
    its prefix. *)
Definition ISO_DATE_REGEX : regex :=
  seq [plus digit; chr "-"; plus digit; chr "-"; plus digit; chr " ";
       times 2 digit; chr ":"; times 2 digit; chr ":"; times 2 digit].

(** [/FLEX[:|] ?/] *)
Definition FLEX_PREFIX_REGEX : regex :=
  seq [lit "FLEX"; one_of ":|"; opt (chr " ")].

(** [/FLEX[:|] ?\d{2} \w+ \d{4} \d{2}:\d{2}:\d{2}/] and
    [/FLEX[:|] ?\d+-\d+-\d+ \d{2}:\d{2}:\d{2}/] *)
Definition FLEX_LONG_DATE_REGEX : regex := RSeq FLEX_PREFIX_REGEX LONG_DATE_REGEX.
Definition FLEX_ISO_DATE_REGEX : regex := RSeq FLEX_PREFIX_REGEX ISO_DATE_REGEX.

(** [/[ |][0-9]{4}\/[0-9]\/X\/.[ |]/] for the letter [X]. *)
Definition frag_code_regex (X : ascii) : regex :=
  seq [one_of " |"; times 4 digit; chr "/"; digit; chr "/"; chr X; chr "/";
       dot; one_of " |"].
Definition FRAG_F_REGEX : regex := frag_code_regex "F".
Definition FRAG_C_REGEX : regex := frag_code_regex "C".
Definition FRAG_K_REGEX : regex := frag_code_regex "K".

(** [/<[A-Za-z]{3}>/g], and the two accented letters (U+00C4, U+00DC). *)
Definition CONTROL_TOKEN_REGEX : regex :=
  seq [chr "<"; times 3 letter; chr ">"].
Definition A_UMLAUT_REGEX : regex := RClass (N.eqb 196).
Definition U_UMLAUT_REGEX : regex := RClass (N.eqb 220).

End Patterns.
Export Patterns.

(** ** JavaScript values *)

Module Js.

(** The values the handler and the configuration can hold.  [JNum]
    stands for an integer-valued number, [JObject] for an object that has
    no [length] property and the default [toString]. *)
Inductive value : Type :=
| JUndefined
| JNull
| JBool (b : bool)
| JNum (n : Z)
| JStr (s : jsstring)
| JObject.

(** ToBoolean. *)
Definition truthy (v : value) : bool :=
  match v with
  | JUndefined | JNull => false
  | JBool b => b
  | JNum n => negb (Z.eqb n 0)
  | JStr s => match s with [] => false | _ :: _ => true end
  | JObject => true
  end.

(** [a || b] *)
Definition or_ (a b : value) : value := if truthy a then a else b.

(** ToString. *)
Definition ToString (v : value) : jsstring :=
  match v with
  | JUndefined => U "undefined"
  | JNull => U "null"
  | JBool true => U "true"
  | JBool false => U "false"
  | JNum n => U (DecimalString.NilZero.string_of_int (Z.to_int n))
  | JStr s => s
  | JObject => U "[object Object]"
  end.

(** What can be thrown inside the handler: the TypeError of a property
    read on [undefined] or [null], or whatever the SAME decoder throws. *)
Inductive exn : Type :=
| TypeError
| ForeignError (tag : nat).

(** [v.length > n]: the property read throws on [undefined] and [null],
    gives [undefined] on the other non-strings, and [undefined > n] is
    false. *)
Definition length_gt (v : value) (n : nat) : exn + bool :=
  match v with
  | JUndefined | JNull => inl TypeError
  | JStr s => inr (Nat.ltb n (length s))
  | JBool _ | JNum _ | JObject => inr false
  end.

End Js.
Export Js.

(** ** The line handler *)

Module Reader.

(** *** Configuration

    The values [nconf.get] returns for the keys the script reads. *)
Record eas_config := {
  excludeEvents : value;
  includeFIPS : value;
  addressAddType : value
}.

Record config := {
  cfg_identifier : value;
  cfg_sendFunctionCode : value;
  cfg_useTimestamp : value;
  (** [None] when [nconf.get('EAS')] is [undefined] or [null]. *)
  cfg_EAS : option eas_config
}.

(** [const identifier = nconf.get('identifier')] *)
Definition identifier (cfg : config) : value := cfg_identifier cfg.

(** [const sendFunctionCode = nconf.get('sendFunctionCode') || false] *)
Definition sendFunctionCode (cfg : config) : value :=
  or_ (cfg_sendFunctionCode cfg) (JBool false).

(** [const useTimestamp = nconf.get('useTimestamp') || true] *)
Definition useTimestamp (cfg : config) : value :=
  or_ (cfg_useTimestamp cfg) (JBool true).

(** [const EASOpts = nconf.get('EAS')] *)
Definition EASOpts (cfg : config) : option eas_config := cfg_EAS cfg.

(** *** External collaborators *)

(** The object [SAME.decode] returns, read at its three keys
    ["LLLL-ORG"], ["type"] and ["MESSAGE"]. *)
Record decoded_message := {
  LLLL_ORG : value;
  type_ : value;
  MESSAGE : value
}.

Inductive decode_result : Type :=
| DecodeThrows (e : exn)
| DecodeNothing
| Decoded (d : decoded_message).

(** [moment_parse s] stands for
    [moment(s, \['DD MMMM YYYY HH:mm:ss', 'YYYY-MM-DD HH:mm:ss'\])]:
    [None] when [isValid()] is false, the [unix()] seconds otherwise.
    [SAME_decode] is jsame's decoder. *)
Record world := {
  moment_parse : jsstring -> option Z;
  SAME_decode : jsstring -> value -> value -> decode_result
}.

(** One ['line'] event: the line, and the readings of the clock the
    handler takes ([moment().format(...)] and [moment().unix()] on entry,
    [moment().unix()] again in the EAS branch). *)
Record line_event := {
  ev_line : jsstring;
  ev_time : jsstring;
  ev_unix : Z;
  ev_unix_eas : Z
}.

(** *** Effects *)

(** The record posted to the server. *)
Record form := {
  f_address : jsstring;
  f_message : value;
  f_datetime : Z;
  f_source : value
}.

(** What the handler writes to the console, by call site. *)
Inductive console_entry : Type :=
| FailedAddress (line : jsstring)
| FailedFunctionCode (line : jsstring)
| FailedAlpha (line : jsstring)
| FailedNumeric (line : jsstring)
| FailedFlexAddress (line : jsstring)
| FailedFlexMessage (line : jsstring)
| FailedEasDecode (line : jsstring)
| ErrorProcessingLine (line : jsstring)
| ErrorValue (err : exn)
| LoggedMessage (time padAddress : jsstring) (trimMessage : value)
| LoggedLine (time line : jsstring).

Inductive effect : Type :=
| Console (entry : console_entry)
| CallSendPage (message : form) (retries : Z).

(** The state a line handler runs in: the global [frag] and the effects
    performed so far, oldest first. *)
Record state := {
  frag : gmap jsstring jsstring;
  trace : list effect
}.

Definition initial_state : state := {| frag := ∅; trace := [] |}.

(** How a piece of the handler ends: normally with a value, by the
    statement [return], or by a thrown exception. *)
Inductive completion (A : Type) : Type :=
| Normal (a : A)
| Returned
| Thrown (e : exn).
Arguments Normal {A} a.
Arguments Returned {A}.
Arguments Thrown {A} e.

Definition M (A : Type) : Type := state -> state * completion A.

#[export] Instance M_ret : MRet M := fun A a st => (st, Normal a).
#[export] Instance M_bind : MBind M := fun A B f m st =>
  match m st with
  | (st', Normal a) => f a st'
  | (st', Returned) => (st', Returned)
  | (st', Thrown e) => (st', Thrown e)
  end.

Definition perform (e : effect) : M unit :=
  fun st => ({| frag := frag st; trace := trace st ++ [e] |}, Normal tt).
Definition console (entry : console_entry) : M unit := perform (Console entry).
Definition return_ {A} : M A := fun st => (st, Returned).
Definition throw {A} (e : exn) : M A := fun st => (st, Thrown e).

(** [frag\[address\]], [frag\[address\] = text] and [delete frag\[address\]]. *)
Definition frag_get (address : jsstring) : M value :=
  fun st => (st, Normal (match frag st !! address with
                         | Some text => JStr text
                         | None => JUndefined
                         end)).
Definition frag_set (address text : jsstring) : M unit :=
  fun st => ({| frag := <[address := text]> (frag st); trace := trace st |}, Normal tt).
Definition frag_delete (address : jsstring) : M unit :=
  fun st => ({| frag := delete address (frag st); trace := trace st |}, Normal tt).

(** [try { body } catch (err) { handler(err) }] *)
Definition try_catch {A} (body : M A) (handler : exn -> M A) : M A :=
  fun st =>
    match body st with
    | (st', Thrown e) => handler e st'
    | r => r
    end.

(** The call of a function whose body is [body]: [return] ends the call. *)
Definition call (body : M unit) : M unit :=
  fun st =>
    match body st with
    | (st', Returned) => (st', Normal tt)
    | r => r
    end.

(** [const m = line.match(r); if (m && m\[i\]) ... m\[i\] ...]: the group
    when the match succeeded and the group is a non-empty string. *)
Definition captured (r : regex) (i : nat) (line : jsstring) : option jsstring :=
  match exec r line with
  | Some m =>
      match group m i with
      | Some (c :: g) => Some (c :: g)
      | _ => None
      end
  | None => None
  end.

(** [a.match(r1) || a.match(r2)] *)
Definition exec_either (r1 r2 : regex) (s : jsstring) : option match_result :=
  match exec r1 s with
  | Some m => Some m
  | None => exec r2 s
  end.

(** The local variables the branches assign and the filter reads. *)
Record locals := {
  l_datetime : Z;
  l_address : value;
  l_message : value;
  l_trimMessage : value
}.

(** [message.replace(/<\[A-Za-z\]{3}>/g, '').replace(/Ä/g, '\[').replace(/Ü/g, '\]')] *)
Definition strip_tokens (message : jsstring) : jsstring :=
  replace_all U_UMLAUT_REGEX (U "]")
    (replace_all A_UMLAUT_REGEX (U "[")
       (replace_all CONTROL_TOKEN_REGEX [] message)).

(** [function padDigits(number, digits)] *)
Definition padDigits (number : value) (digits : nat) : jsstring :=
  padStart digits 48 (ToString number).

Section Handler.

Variable cfg : config.
Variable w : world.

(** The POCSAG branch (the body of the first [if]). *)
Definition pocsag (ev : line_event) (vars : locals) : M locals :=
  let line := ev_line ev in
  address ← match captured POCSAG_ADDRESS_REGEX 2 line with
            | Some g => mret (trim g)
            | None => console (FailedAddress line);; return_
            end;
  address ← (if truthy (sendFunctionCode cfg) then
               match captured POCSAG_FUNCTION_REGEX 3 line with
               | Some g => mret (address ++ g)
               | None => console (FailedFunctionCode line);; mret address
               end
             else mret address);
  let vars := {| l_datetime := l_datetime vars; l_address := JStr address;
                 l_message := l_message vars; l_trimMessage := l_trimMessage vars |} in
  if includes (U "Alpha:") line then
    match captured ALPHA_REGEX 1 line with
    | Some g =>
        let message := trim g in
        let '(datetime, message) :=
          if truthy (useTimestamp cfg) then
            match exec_either LONG_DATE_REGEX ISO_DATE_ALPHA_REGEX message with
            | Some timestampMatch =>
                let timeString := matched timestampMatch in
                match moment_parse w timeString with
                | Some unix =>
                    (unix, trim (replace_str (matched timestampMatch) [] message))
                | None => (l_datetime vars, message)
                end
            | None => (l_datetime vars, message)
            end
          else (l_datetime vars, message) in
        mret {| l_datetime := datetime; l_address := l_address vars;
                l_message := JStr message;
                l_trimMessage := JStr (trim (strip_tokens message)) |}
    | None => console (FailedAlpha line);; mret vars
    end
  else if includes (U "Numeric:") line then
    match captured NUMERIC_REGEX 1 line with
    | Some g =>
        let message := trim g in
        mret {| l_datetime := l_datetime vars; l_address := l_address vars;
                l_message := JStr message;
                l_trimMessage := JStr (strip_tokens message) |}
    | None => console (FailedNumeric line);; mret vars
    end
  else mret vars.

(** The fragmentation code of a FLEX line, in the order the handler
    tests the three patterns. *)
Inductive frag_code : Type := CodeF | CodeC | CodeK | CodeOther.

Definition fragmentation (line : jsstring) : frag_code :=
  if test FRAG_F_REGEX line then CodeF
  else if test FRAG_C_REGEX line then CodeC
  else if test FRAG_K_REGEX line then CodeK
  else CodeOther.

(** The FLEX branch. *)
Definition flex (ev : line_event) (vars : locals) : M locals :=
  let line := ev_line ev in
  address ← match captured FLEX_ADDRESS_REGEX 1 line with
            | Some g => mret (trim g)
            | None => console (FailedFlexAddress line);; return_
            end;
  let datetime :=
    if truthy (useTimestamp cfg) then
      match exec_either FLEX_LONG_DATE_REGEX FLEX_ISO_DATE_REGEX line with
      | Some timestampMatch =>
          let timeString := replace FLEX_PREFIX_REGEX [] (matched timestampMatch) in
          match moment_parse w timeString with
          | Some unix => unix
          | None => l_datetime vars
          end
      | None => l_datetime vars
      end
    else l_datetime vars in
  let vars := {| l_datetime := datetime; l_address := JStr address;
                 l_message := l_message vars; l_trimMessage := l_trimMessage vars |} in
  if test ALN_GPN_NUM_REGEX line then
    match captured FLEX_MESSAGE_REGEX 1 line with
    | Some g =>
        let message := trim g in
        match fragmentation line with
        | CodeF =>
            frag_set address message;;
            mret {| l_datetime := datetime; l_address := JStr address;
                    l_message := JBool false; l_trimMessage := JStr [] |}
        | CodeC =>
            stored ← frag_get address;
            let trimMessage := ToString (or_ stored (JStr [])) ++ message in
            frag_delete address;;
            mret {| l_datetime := datetime; l_address := JStr address;
                    l_message := JStr message; l_trimMessage := JStr trimMessage |}
        | CodeK | CodeOther =>
            mret {| l_datetime := datetime; l_address := JStr address;
                    l_message := JStr message; l_trimMessage := JStr message |}
        end
    | None => console (FailedFlexMessage line);; mret vars
    end
  else mret vars.

(** The EAS branch.  Reading a property of [EASOpts] throws when the
    configuration has no [EAS] object. *)
Definition eas (ev : line_event) (vars : locals) : M locals :=
  let line := ev_line ev in
  match EASOpts cfg with
  | None => throw TypeError
  | Some opts =>
      match SAME_decode w line (excludeEvents opts) (includeFIPS opts) with
      | DecodeThrows e => throw e
      | DecodeNothing => console (FailedEasDecode line);; mret vars
      | Decoded decodedMessage =>
          let address :=
            if truthy (addressAddType opts) then
              JStr (ToString (LLLL_ORG decodedMessage) ++ U "-"
                    ++ ToString (type_ decodedMessage))
            else LLLL_ORG decodedMessage in
          mret {| l_datetime := ev_unix_eas ev; l_address := address;
                  l_message := MESSAGE decodedMessage;
                  l_trimMessage := MESSAGE decodedMessage |}
      end
  end.

(** The last branch: a line of no family. *)
Definition non_matching (ev : line_event) (vars : locals) : M locals :=
  mret {| l_datetime := l_datetime vars; l_address := JStr [];
          l_message := JBool false; l_trimMessage := JStr [] |}.

(** The [let] declarations that open the [try] block. *)
Definition declared (ev : line_event) : locals :=
  {| l_datetime := ev_unix ev; l_address := JStr [];
     l_message := JBool false; l_trimMessage := JStr [] |}.

(** The [if / else if] chain of the handler. *)
Definition decode (ev : line_event) : M locals :=
  let line := ev_line ev in
  let vars := declared ev in
  if test POCSAG_TEST_REGEX line then pocsag ev vars
  else if test FLEX_ADDRESS_REGEX line then flex ev vars
  else if test EAS_REGEX line then eas ev vars
  else non_matching ev vars.

(** [if (address.length > 2 && message) { ... } else { ... }] *)
Definition filter_and_send (ev : line_event) (vars : locals) : M unit :=
  match length_gt (l_address vars) 2 with
  | inl e => throw e
  | inr long =>
      if long && truthy (l_message vars) then
        let padAddress := padDigits (l_address vars) 7 in
        console (LoggedMessage (ev_time ev) padAddress (l_trimMessage vars));;
        perform (CallSendPage {| f_address := padAddress;
                                 f_message := l_trimMessage vars;
                                 f_datetime := l_datetime vars;
                                 f_source := identifier cfg |} 0)
      else console (LoggedLine (ev_time ev) (ev_line ev))
  end.

(** The body of the [try] block. *)
Definition try_block (ev : line_event) : M unit :=
  vars ← decode ev; filter_and_send ev vars.

(** The listener registered with [rl.on('line', ...)]. *)
Definition on_line (ev : line_event) : M unit :=
  call (try_catch (try_block ev)
          (fun err => console (ErrorProcessingLine (ev_line ev));;
                      console (ErrorValue err))).

(** The process reading its input: every line runs the listener; an
    exception leaving the listener is uncaught and ends the process, the
    lines after it are never handled. *)
Inductive process_status : Type :=
| Running
| Crashed (e : exn).

Fixpoint read_lines (evs : list line_event) (st : state) : state * process_status :=
  match evs with
  | [] => (st, Running)
  | ev :: evs' =>
      match on_line ev st with
      | (st', Thrown e) => (st', Crashed e)
      | (st', _) => read_lines evs' st'
      end
  end.

End Handler.

(** The forms handed to [sendPage] in a trace, oldest first. *)
Definition sent (t : list effect) : list form :=
  omap (fun e => match e with CallSendPage m _ => Some m | Console _ => None end) t.

(** The state with one more effect, and the form the filter builds. *)
Definition record (e : effect) (st : state) : state :=
  {| frag := frag st; trace := trace st ++ [e] |}.

Definition form_of (cfg : config) (vars : locals) : form :=
  {| f_address := padDigits (l_address vars) 7;
     f_message := l_trimMessage vars;
     f_datetime := l_datetime vars;
     f_source := identifier cfg |}.

End Reader.
Export Reader.

(** ** Delivery *)

Module Sender.

(** What one message's delivery does, in the order it happens. *)
Inductive sender_event : Type :=
| Request (message : form) (retries : Z)
| LogFailed
| LogRetrying (retryTime : Z)
| SetTimeout (retryTime : Z) (retries : Z)
| LogGivingUp.

Section SendPage.

(** The outcome of the request [rp(options)] that the call
    [sendPage(message, retries)] issues: [true] when the promise is
    fulfilled, [false] when it is rejected. *)
Variable rp : form -> Z -> bool.

(** [function sendPage(message, retries)], followed through the timers
    it sets.  [retries] is a non-negative integer at every call, where
    [Math.pow(2, retries) * 1000] is the integer [2 ^ retries * 1000]. *)
Equations? sendPage (message : form) (retries : Z) : list sender_event
  by wf (Z.to_nat (10 - retries)) lt :=
sendPage message retries :=
  Request message retries ::
  (if rp message retries then []
   else
     LogFailed ::
     match Z_lt_dec retries 10 with
     | left _ =>
         let retryTime := (2 ^ retries * 1000)%Z in
         let retries' := (retries + 1)%Z in
         LogRetrying retryTime :: SetTimeout retryTime retries'
           :: sendPage message retries'
     | right _ => [LogGivingUp]
     end).
Proof. lia. Qed.

End SendPage.

(** The delays of the timers set, and the requests issued. *)
Definition delays (evs : list sender_event) : list Z :=
  omap (fun e => match e with SetTimeout d _ => Some d | _ => None end) evs.
Definition requests (evs : list sender_event) : list Z :=
  omap (fun e => match e with Request _ r => Some r | _ => None end) evs.

End Sender.
Export Sender.

(** ** Views of a line

    Two readings of a line in the words of the design: its protocol
    family and, for a FLEX frame that carries text, its address, text and
    fragmentation code.  They are compared with the handler below. *)

Module View.

Inductive ProtocolFamily : Type := POCSAG | FLEX | EAS | UNKNOWN.

(** The family patterns, tested in the precedence order
    POCSAG, FLEX, EAS; the first match wins. *)
Definition family_patterns : list (regex * ProtocolFamily) :=
  [(POCSAG_TEST_REGEX, POCSAG); (FLEX_ADDRESS_REGEX, FLEX); (EAS_REGEX, EAS)].

Fixpoint first_match (ps : list (regex * ProtocolFamily)) (line : jsstring)
    : ProtocolFamily :=
  match ps with
  | [] => UNKNOWN
  | (r, fam) :: ps' => if test r line then fam else first_match ps' line
  end.

Definition classify (line : jsstring) : ProtocolFamily :=
  first_match family_patterns line.

(** The decoder of a family. *)
Definition decoder (cfg : config) (w : world) (fam : ProtocolFamily)
    : line_event -> locals -> M locals :=
  match fam with
  | POCSAG => pocsag cfg w
  | FLEX => flex cfg w
  | EAS => eas cfg w
  | UNKNOWN => non_matching
  end.

(** A FLEX frame with text: a line of the FLEX family with an address, a
    content-type marker and a payload.  The address and the text are the
    trimmed captures. *)
Definition flex_frame (line : jsstring) : option (jsstring * jsstring * frag_code) :=
  match classify line with
  | FLEX =>
      match captured FLEX_ADDRESS_REGEX 1 line with
      | Some a =>
          if test ALN_GPN_NUM_REGEX line then
            match captured FLEX_MESSAGE_REGEX 1 line with
            | Some g => Some (trim a, trim g, fragmentation line)
            | None => None
            end
          else None
      | None => None
      end
  | _ => None
  end.

(** Whether a line is a fragment or completion frame for the address. *)
Definition touches (a : jsstring) (line : jsstring) : bool :=
  match flex_frame line with
  | Some (a', _, CodeF) | Some (a', _, CodeC) => bool_decide (a' = a)
  | _ => false
  end.

(** What a line does to the fragment store. *)
Definition frag_update (line : jsstring) (store : gmap jsstring jsstring)
    : gmap jsstring jsstring :=
  match flex_frame line with
  | Some (a, text, CodeF) => <[a := text]> store
  | Some (a, _, CodeC) => delete a store
  | _ => store
  end.

(** The timestamp the FLEX branch settles on. *)
Definition flex_datetime (cfg : config) (w : world) (ev : line_event) : Z :=
  if truthy (useTimestamp cfg) then
    match exec_either FLEX_LONG_DATE_REGEX FLEX_ISO_DATE_REGEX (ev_line ev) with
    | Some timestampMatch =>
        match moment_parse w (replace FLEX_PREFIX_REGEX [] (matched timestampMatch)) with
        | Some unix => unix
        | None => ev_unix ev
        end
    | None => ev_unix ev
    end
  else ev_unix ev.

(** The test of the filter, on values that cannot throw. *)
Definition passes (vars : locals) : bool :=
  match length_gt (l_address vars) 2 with
  | inr long => long && truthy (l_message vars)
  | inl _ => false
  end.

(** What a line adds to the forms sent: the form of the decoded
    variables when they pass the filter, nothing otherwise. *)
Definition emitted (cfg : config) (w : world) (ev : line_event) (st : state)
    : list form :=
  match decode cfg w ev st with
  | (_, Normal vars) => if passes vars then [form_of cfg vars] else []
  | _ => []
  end.

(** A computation is quiet when it calls [sendPage] never: the forms
    sent are those sent before it ran. *)
Definition quiet {A} (m : M A) : Prop :=
  forall st st' c, m st = (st', c) -> sent (trace st') = sent (trace st).

(** A computation is still when it leaves [frag] alone. *)
Definition still {A} (m : M A) : Prop :=
  forall st st' c, m st = (st', c) -> frag st' = frag st.

End View.
Export View.

(** ** Sample inputs *)

Module Samples.

Local Open Scope string_scope.
Local Open Scope Z_scope.

(** A world whose clock library parses one date and whose SAME decoder
    finds nothing. *)
Definition sample_world : world := {|
  moment_parse := fun s =>
    if bool_decide (s = U "2017-06-04 12:00:00") then Some 1496577600 else None;
  SAME_decode := fun _ _ _ => DecodeNothing
|}.

(** A configuration that sets [useTimestamp] to [false]. *)
Definition sample_config : config := {|
  cfg_identifier := JStr (U "TEST");
  cfg_sendFunctionCode := JBool false;
  cfg_useTimestamp := JBool false;
  cfg_EAS := Some {| excludeEvents := JObject; includeFIPS := JObject;
                     addressAddType := JBool true |}
|}.

(** A configuration without the [EAS] object. *)
Definition bare_config : config := {|
  cfg_identifier := JStr (U "TEST");
  cfg_sendFunctionCode := JBool true;
  cfg_useTimestamp := JUndefined;
  cfg_EAS := None
|}.

(** A line read five seconds after the sample date. *)
Definition event_of (line : string) : line_event := {|
  ev_line := U line;
  ev_time := U "2017-06-04 12:00:05";
  ev_unix := 1496577605;
  ev_unix_eas := 1496577605
|}.

Definition pocsag_line : string :=
  "POCSAG512: Address: 1234567  Function: 3  Alpha: 2017-06-04 12:00:00 TEST MESSAGE".
Definition pocsag_token_line : string :=
  "POCSAG512: Address: 1234567  Function: 3  Alpha: <NUL>".
Definition pocsag_flex_line : string :=
  "POCSAG512: Address: 1234567  Function: 3  Alpha: FLEX: [0012345] ALN x".
Definition flex_start_line : string :=
  "FLEX: 2017-06-04 12:00:00 1600/2/F/A 05.109 [001234567] ALN HELLO ".
Definition flex_other_line : string :=
  "FLEX: 2017-06-04 12:00:00 1600/2/K/A 05.110 [007654321] ALN IN BETWEEN".
Definition flex_end_line : string :=
  "FLEX: 2017-06-04 12:00:04 1600/2/C/A 05.111 [001234567] ALN WORLD".
Definition flex_short_start_line : string :=
  "FLEX: 2017-06-04 12:00:00 1600/2/F/A 05.109 [12] ALN HELLO ".
Definition flex_short_end_line : string :=
  "FLEX: 2017-06-04 12:00:04 1600/2/C/A 05.111 [12] ALN WORLD".
Definition eas_line : string :=
  "EAS: ZCZC-WXR-RWT-012345+0030-1561200-KABC/NWS-".
Definition noise_line : string := "Enabled demodulators: POCSAG512 FLEX".

Definition blank_form : form :=
  {| f_address := U "0000123"; f_message := JStr (U "TEST");
     f_datetime := 1496577600; f_source := JStr (U "TEST") |}.

End Samples.
Export Samples.

(** ** Start-up: the collector endpoint *)

Module Startup.

(** [s.endsWith(p)] *)
Definition endsWith (p s : jsstring) : bool :=
  Nat.leb (length p) (length s)
  && bool_decide (drop (length s - length p) s = p).

(** The position an argument of [slice] stands for in a string of
    length [len]: counted from the end when negative, clamped to the
    string. *)
Definition slice_index (len : nat) (i : Z) : nat :=
  if (i <? 0)%Z then Z.to_nat (Z.max (Z.of_nat len + i) 0)
  else Nat.min (Z.to_nat i) len.

(** [s.slice(start, stop)] *)
Definition slice (start stop : Z) (s : jsstring) : jsstring :=
  let from := slice_index (length s) start in
  let to := slice_index (length s) stop in
  take (to - from) (drop from s).

(** [const uri = hostname.endsWith('/') ?
      `${hostname.slice(0, -1)}/api/messages` : `${hostname}/api/messages`] *)
Definition uri (hostname : jsstring) : jsstring :=
  if endsWith (U "/") hostname then slice 0 (-1) hostname ++ U "/api/messages"
  else hostname ++ U "/api/messages".

End Startup.
Export Startup.

(** ** Measures of a delivery and further sample inputs *)

Module Measures.

Local Open Scope string_scope.
Local Open Scope Z_scope.

(** The time a delivery spends waiting on its timers, in ms. *)
Definition total_delay (evs : list sender_event) : Z :=
  foldr Z.add 0 (delays evs).

(** The outcome of a delivery whose requests fail until the one numbered
    [k] succeeds. *)
Definition succeeds_at (k : Z) : form -> Z -> bool :=
  fun _ retries => bool_decide (retries = k).

(** A computation that only writes to the console, and that writes at
    least once before it ends by [return]. *)
Definition logs_only {A} (m : M A) : Prop :=
  forall st st' c, m st = (st', c) ->
    exists entries, trace st' = (trace st ++ map Console entries)%list
                    /\ (c = Returned -> entries <> []).

(** A string of decimal digits. *)
Definition all_digits (s : jsstring) : Prop :=
  Forall (fun x => is_digit x = true) s.

(** A configuration that keeps the bare organisation code as the EAS
    address. *)
Definition plain_eas_config : config := {|
  cfg_identifier := JStr (U "TEST");
  cfg_sendFunctionCode := JBool true;
  cfg_useTimestamp := JBool true;
  cfg_EAS := Some {| excludeEvents := JObject; includeFIPS := JObject;
                     addressAddType := JBool false |}
|}.

(** A world whose SAME decoder resolves every line to a weekly test of
    the organisation [org]. *)
Definition eas_world (org : value) : world := {|
  moment_parse := fun _ => None;
  SAME_decode := fun _ _ _ =>
    Decoded {| LLLL_ORG := org; type_ := JStr (U "RWT");
               MESSAGE := JStr (U "Test message") |}
|}.

(** A world whose SAME decoder drops every line under the event filter
    of [sample_config] and resolves it under any other filter. *)
Definition filtering_world : world := {|
  moment_parse := fun _ => None;
  SAME_decode := fun _ exclude _ =>
    match exclude with
    | JObject => DecodeNothing
    | _ => Decoded {| LLLL_ORG := JStr (U "012345"); type_ := JStr (U "RWT");
                      MESSAGE := JStr (U "Test message") |}
    end
|}.

Definition pocsag_no_function_line : string :=
  "POCSAG512: Address: 1234567  Alpha: TEST".
Definition flex_no_address_line : string := "FLEX: x| foo".
Definition pocsag_numeric_line : string :=
  "POCSAG1200: Address:  654321  Function: 0  Numeric: 0123-456 ".
Definition pocsag_bare_line : string :=
  "POCSAG512: Address: 1234567  Function: 3".
Definition flex_tone_line : string :=
  "FLEX: 2017-06-04 12:00:00 1600/2/K/A 05.110 [007654321] TON 5".
Definition flex_restart_line : string :=
  "FLEX: 2017-06-04 12:00:02 1600/2/F/A 05.110 [001234567] ALN AGAIN ".
Definition flex_blank_end_line : string :=
  "FLEX: 2017-06-04 12:00:04 1600/2/C/A 05.111 [001234567] ALN  ".
Definition flex_empty_line : string := "FLEX: 1600/2/K/A [0012345] ALN ".

End Measures.
Export Measures.

(** ** Reasoning about the handler *)

Arguments exec : simpl never.
Arguments test : simpl never.
Arguments captured : simpl never.
Arguments exec_either : simpl never.
Arguments includes : simpl never.
Arguments trim : simpl never.
Arguments strip_tokens : simpl never.
Arguments replace : simpl never.
Arguments replace_str : simpl never.
Arguments padDigits : simpl never.
Arguments fragmentation : simpl never.

Ltac invert_pairs :=
  repeat match goal with
         | H : (_, _) = (_, _) |- _ => inversion H; subst; clear H
         end.

Ltac unfold_M :=
  unfold mbind, M_bind, mret, M_ret, console, perform, return_, throw,
    frag_set, frag_get, frag_delete in *.

(** ** The matcher

    Every result of the backtracking matcher is a match of the pattern.
    From this, the address the FLEX branch captures is a non-empty string
    of digits: the object [frag] is only ever indexed with digit strings,
    where a JavaScript object is a finite map. *)

Example greedy_iteration_backtracks :
  (m ← exec (seq [star dot; chr "b"]) (U "abab"); group m 0) = Some (U "abab").
Proof. reflexivity. Qed.

Example lazy_iteration_stops_early :
  (m ← exec (seq [chr "a"; RGroup 1 (star_lazy dot); chr "b"]) (U "xabab");
   Some (index m, group m 1)) = Some (1%nat, Some (U "")).
Proof. reflexivity. Qed.

Example alternation_prefers_left :
  (m ← exec (RAlt (lit "ab") (lit "abc")) (U "abc"); group m 0) = Some (U "ab").
Proof. reflexivity. Qed.

Example end_assertion :
  (m ← exec (seq [chr ":"; RGroup 1 (star_lazy dot); REnd]) (U "k: v w");
   group m 1) = Some (U " v w").
Proof. reflexivity. Qed.

Example replace_all_tokens :
  replace_all CONTROL_TOKEN_REGEX [] (U "A<NUL>B<eot>C<12>") = U "ABC<12>".
Proof. reflexivity. Qed.

Example trim_both_ends : trim (U "  a b  ") = U "a b".
Proof. reflexivity. Qed.

Section Soundness.

Context {A : Type}.

Lemma iterate_sound (g : bool) (r : regex)
    (m : list N -> captures -> (list N -> captures -> option A) -> option A)
    (k : list N -> captures -> option A) :
  (forall s c k' a, m s c k' = Some a ->
     exists s1 c1, matches r s c s1 c1 /\ k' s1 c1 = Some a) ->
  forall fuel s c a,
    iterate g m k fuel s c = Some a ->
    exists s1 c1, matches (RStar g r) s c s1 c1 /\ k s1 c1 = Some a.
Proof.
  intros Hm. induction fuel as [|fuel IH]; intros s c a H; cbn [iterate] in H.
  - exists s, c. split; [constructor|done].
  - assert (Hmore : forall a',
        m s c (fun s1 c1 => if Nat.ltb (length s1) (length s)
                            then iterate g m k fuel s1 c1 else None) = Some a' ->
        exists s2 c2, matches (RStar g r) s c s2 c2 /\ k s2 c2 = Some a').
    { intros a' E. apply Hm in E as (s1 & c1 & M1 & E).
      destruct (Nat.ltb (length s1) (length s)) eqn:L; [|discriminate].
      apply Nat.ltb_lt in L. apply IH in E as (s2 & c2 & M2 & E).
      exists s2, c2. split; [eapply matches_star_more; eauto|done]. }
    assert (Hstop : forall a', k s c = Some a' ->
        exists s2 c2, matches (RStar g r) s c s2 c2 /\ k s2 c2 = Some a').
    { intros a' E. exists s, c. split; [constructor|done]. }
    cbn zeta in H. destruct g.
    + match type of H with match ?x with _ => _ end = _ => destruct x eqn:E end.
      * injection H as ->. by apply Hmore.
      * by apply Hstop.
    + match type of H with match ?x with _ => _ end = _ => destruct x eqn:E end.
      * injection H as ->. by apply Hstop.
      * by apply Hmore.
Qed.

End Soundness.

Lemma rmatch_sound (r : regex) :
  forall {A} (s : list N) (c : captures) (k : list N -> captures -> option A) (a : A),
    rmatch r s c k = Some a ->
    exists s1 c1, matches r s c s1 c1 /\ k s1 c1 = Some a.
Proof.
  induction r as [p| |r1 IH1 r2 IH2|r1 IH1 r2 IH2|g r IH|i r IH|];
    intros A s c k a H; cbn [rmatch] in H.
  - destruct s as [|x s]; [discriminate|].
    destruct (p x) eqn:P; [|discriminate].
    exists s, c. split; [by constructor|done].
  - exists s, c. split; [constructor|done].
  - apply IH1 in H as (s1 & c1 & M1 & H). apply IH2 in H as (s2 & c2 & M2 & H).
    exists s2, c2. split; [econstructor; eauto|done].
  - destruct (rmatch r1 s c k) as [a'|] eqn:E.
    + injection H as ->. apply IH1 in E as (s1 & c1 & M1 & E).
      exists s1, c1. split; [by apply matches_alt_l|done].
    + apply IH2 in H as (s1 & c1 & M1 & H).
      exists s1, c1. split; [by apply matches_alt_r|done].
  - eapply iterate_sound; [|exact H]. intros s0 c0 k' a0. apply IH.
  - apply IH in H as (s1 & c1 & M1 & H).
    eexists _, _. split; [by constructor|done].
  - destruct s; [|discriminate]. exists [], c. split; [constructor|done].
Qed.

(** A match found by [exec] is a match of the pattern at some suffix. *)
Lemma exec_from_sound r i s m :
  exec_from r i s = Some m ->
  exists s0 s1, matches r s0 no_captures s1 (groups m)
                /\ matched m = take (length s0 - length s1) s0.
Proof.
  revert i. induction s as [|x s IH]; intros i H; cbn [exec_from] in H.
  - destruct (rmatch r [] no_captures _) as [[s1 c1]|] eqn:E; [|discriminate].
    apply rmatch_sound in E as (s1' & c1' & M & [= <- <-]).
    injection H as <-. eauto.
  - destruct (rmatch r (x :: s) no_captures _) as [[s1 c1]|] eqn:E.
    + apply rmatch_sound in E as (s1' & c1' & M & [= <- <-]).
      injection H as <-. eauto.
    + eauto.
Qed.

(** An iteration of a character class consumes characters of the class
    and leaves the captures alone. *)
Lemma matches_star_class g p s c s1 c1 :
  matches (RStar g (RClass p)) s c s1 c1 ->
  c1 = c /\ exists pre, s = pre ++ s1 /\ Forall (fun x => p x = true) pre.
Proof.
  remember (RStar g (RClass p)) as r eqn:R. intros M.
  induction M; try discriminate; injection R as -> ->.
  - split; [done|]. by exists [].
  - inversion M1; subst. destruct (IHM2 eq_refl) as (-> & pre & -> & F).
    split; [done|]. exists (x :: pre). split; [done|]. by constructor.
Qed.

Lemma matches_class_inv p s c s1 c1 :
  matches (RClass p) s c s1 c1 -> c1 = c /\ exists x, s = x :: s1.
Proof. inversion 1; subst. eauto. Qed.

Lemma flex_address_digits line g :
  captured FLEX_ADDRESS_REGEX 1 line = Some g ->
  g <> [] /\ Forall (fun x => is_digit x = true) g.
Proof.
  unfold captured, exec.
  destruct (exec_from FLEX_ADDRESS_REGEX 0 line) as [m|] eqn:E; [|discriminate].
  apply exec_from_sound in E as (s0 & s1 & M & _).
  cbn [group]. destruct (groups m 1%nat) as [[|x g']|] eqn:G; try discriminate.
  intros [= <-]. split; [discriminate|].
  unfold FLEX_ADDRESS_REGEX in M. cbn [seq] in M.
  repeat match goal with
         | H : matches (RSeq _ _) _ _ _ _ |- _ => inversion H; subst; clear H
         end.
  match goal with
  | H : matches (RGroup _ _) _ _ _ _ |- _ => inversion H; subst; clear H
  end.
  match goal with
  | H : matches (star_lazy digit) _ _ _ _ |- _ =>
      apply matches_star_class in H as (_ & pre & -> & F)
  end.
  match goal with
  | H : matches (one_of _) _ _ _ (groups m) |- _ =>
      apply matches_class_inv in H as [E _]; rewrite E in G
  end.
  unfold set_capture in G. cbn in G. injection G as G.
  rewrite take_app_length' in G by (rewrite length_app; lia). by rewrite <- G.
Qed.

Lemma digit_not_space x : is_digit x = true -> is_space x = false.
Proof.
  unfold is_digit. intros [H1 H2]%andb_true_iff.
  apply N.leb_le in H1, H2. unfold is_space.
  repeat match goal with
         | |- context [N.leb ?a ?b] => destruct (N.leb_spec a b); try lia
         | |- context [N.eqb ?a ?b] => destruct (N.eqb_spec a b); try lia
         end.
Qed.

Lemma trimStart_id s :
  Forall (fun x => is_space x = false) s -> trimStart s = s.
Proof. destruct 1 as [|x s Hx _]; [done|]. cbn. by rewrite Hx. Qed.

Lemma trim_id s :
  Forall (fun x => is_space x = false) s -> trim s = s.
Proof.
  intros H. unfold trim, trimEnd. rewrite (trimStart_id s H).
  rewrite trimStart_id; [apply rev_involutive|].
  by apply Forall_rev.
Qed.

(** The address of a FLEX frame is a non-empty string of digits: the
    handler indexes [frag] with digit strings only. *)
Lemma flex_frame_address line a t code :
  flex_frame line = Some (a, t, code) ->
  a <> [] /\ Forall (fun x => is_digit x = true) a.
Proof.
  unfold flex_frame. destruct (classify line); try discriminate.
  destruct (captured FLEX_ADDRESS_REGEX 1 line) as [g|] eqn:G; [|discriminate].
  destruct (test ALN_GPN_NUM_REGEX line); [|discriminate].
  destruct (captured FLEX_MESSAGE_REGEX 1 line); [|discriminate].
  intros [= <- _ _]. apply flex_address_digits in G as [Hne Hd].
  rewrite trim_id; [done|].
  eapply Forall_impl; [exact Hd|]. apply digit_not_space.
Qed.

(** ** Effects of the decoding chain *)

Section Quiet.

Lemma sent_app t1 t2 : sent (t1 ++ t2) = sent t1 ++ sent t2.
Proof. unfold sent. apply omap_app. Qed.

Lemma quiet_ret {A} (a : A) : quiet (mret a).
Proof. intros st st' c H. unfold_M. by inversion H. Qed.

Lemma quiet_return {A} : quiet (@return_ A).
Proof. intros st st' c H. unfold_M. by inversion H. Qed.

Lemma quiet_throw {A} e : quiet (@throw A e).
Proof. intros st st' c H. unfold_M. by inversion H. Qed.

Lemma quiet_console entry : quiet (console entry).
Proof.
  intros st st' c H. unfold_M. inversion H; subst; simpl.
  rewrite sent_app. simpl. by rewrite app_nil_r.
Qed.

Lemma quiet_frag_set a t : quiet (frag_set a t).
Proof. intros st st' c H. unfold_M. by inversion H. Qed.

Lemma quiet_frag_get a : quiet (frag_get a).
Proof. intros st st' c H. unfold_M. by inversion H. Qed.

Lemma quiet_frag_delete a : quiet (frag_delete a).
Proof. intros st st' c H. unfold_M. by inversion H. Qed.

Lemma quiet_bind {A B} (m : M A) (f : A -> M B) :
  quiet m -> (forall a, quiet (f a)) -> quiet (m ≫= f).
Proof.
  intros Hm Hf st st' c H. unfold mbind, M_bind in H.
  destruct (m st) as [st1 [a| |e]] eqn:E.
  - rewrite (Hf a _ _ _ H). eauto.
  - inversion H; subst. eauto.
  - inversion H; subst. eauto.
Qed.

End Quiet.

Create HintDb quiet.
#[export] Hint Resolve quiet_ret quiet_return quiet_throw quiet_console
  quiet_frag_set quiet_frag_get quiet_frag_delete : quiet.

Ltac quiet_step :=
  first
    [ apply quiet_bind; [ | intros ? ]
    | progress eauto with quiet
    | match goal with
      | |- quiet (match ?x with _ => _ end) => destruct x
      | |- quiet (let '(_, _) := ?x in _) => destruct x
      end ].

Section HandlerFacts.

Variable cfg : config.
Variable w : world.

Lemma quiet_pocsag ev vars : quiet (pocsag cfg w ev vars).
Proof. unfold pocsag. repeat quiet_step. Qed.

Lemma quiet_flex ev vars : quiet (flex cfg w ev vars).
Proof. unfold flex. repeat quiet_step. Qed.

Lemma quiet_eas ev vars : quiet (eas cfg w ev vars).
Proof. unfold eas. repeat quiet_step. Qed.

Lemma quiet_decode ev : quiet (decode cfg w ev).
Proof.
  unfold decode, non_matching.
  destruct (test POCSAG_TEST_REGEX _); [apply quiet_pocsag|].
  destruct (test FLEX_ADDRESS_REGEX _); [apply quiet_flex|].
  destruct (test EAS_REGEX _); [apply quiet_eas|].
  apply quiet_ret.
Qed.

End HandlerFacts.

Section OnLine.

Variable cfg : config.
Variable w : world.

(** The three ways the [try] block can leave the decoding chain. *)
Lemma on_line_decoded ev st st1 vars :
  decode cfg w ev st = (st1, Normal vars) ->
  on_line cfg w ev st =
    match length_gt (l_address vars) 2 with
    | inl e =>
        (record (Console (ErrorValue e))
           (record (Console (ErrorProcessingLine (ev_line ev))) st1), Normal tt)
    | inr long =>
        if long && truthy (l_message vars) then
          (record (CallSendPage (form_of cfg vars) 0)
             (record (Console (LoggedMessage (ev_time ev)
                        (padDigits (l_address vars) 7) (l_trimMessage vars))) st1),
           Normal tt)
        else (record (Console (LoggedLine (ev_time ev) (ev_line ev))) st1, Normal tt)
    end.
Proof.
  intros H. unfold on_line, call, try_catch, try_block, filter_and_send.
  unfold mbind at 1. unfold M_bind at 1. rewrite H.
  destruct (length_gt (l_address vars) 2) as [e|long]; [reflexivity|].
  destruct (long && truthy (l_message vars)); reflexivity.
Qed.

Lemma on_line_returned ev st st1 :
  decode cfg w ev st = (st1, Returned) ->
  on_line cfg w ev st = (st1, Normal tt).
Proof.
  intros H. unfold on_line, call, try_catch, try_block.
  unfold mbind at 1. unfold M_bind at 1. by rewrite H.
Qed.

Lemma on_line_thrown ev st st1 e :
  decode cfg w ev st = (st1, Thrown e) ->
  on_line cfg w ev st =
    (record (Console (ErrorValue e))
       (record (Console (ErrorProcessingLine (ev_line ev))) st1), Normal tt).
Proof.
  intros H. unfold on_line, call, try_catch, try_block.
  unfold mbind at 1. unfold M_bind at 1. by rewrite H.
Qed.

(** The listener always completes normally. *)
Lemma on_line_normal ev st : exists st', on_line cfg w ev st = (st', Normal tt).
Proof.
  destruct (decode cfg w ev st) as [st1 [vars| |e]] eqn:E.
  - rewrite (on_line_decoded _ _ _ _ E).
    destruct (length_gt _ _) as [?|long]; [eauto|].
    destruct (long && _); eauto.
  - rewrite (on_line_returned _ _ _ E). eauto.
  - rewrite (on_line_thrown _ _ _ _ E). eauto.
Qed.

Lemma sent_record_console entry st :
  sent (trace (record (Console entry) st)) = sent (trace st).
Proof. simpl. rewrite sent_app. simpl. apply app_nil_r. Qed.

Lemma sent_record_call f r st :
  sent (trace (record (CallSendPage f r) st)) = sent (trace st) ++ [f].
Proof. simpl. by rewrite sent_app. Qed.

(** The process handles every line, each in the state the line before
    it left. *)
Lemma read_lines_foldl evs st :
  read_lines cfg w evs st
  = (foldl (fun s ev => (on_line cfg w ev s).1) st evs, Running).
Proof.
  revert st. induction evs as [|ev evs IH]; intros st; [reflexivity|].
  cbn [read_lines foldl].
  destruct (on_line_normal ev st) as [st' E]. rewrite E. apply IH.
Qed.

(** The decoding chain dispatches on the family of the line. *)
Lemma decode_classify ev :
  decode cfg w ev = decoder cfg w (classify (ev_line ev)) ev (declared ev).
Proof.
  unfold decode, classify, family_patterns, first_match.
  destruct (test POCSAG_TEST_REGEX _); [reflexivity|].
  destruct (test FLEX_ADDRESS_REGEX _); [reflexivity|].
  destruct (test EAS_REGEX _); reflexivity.
Qed.

End OnLine.

Section Frag.

Variable cfg : config.
Variable w : world.

(** [(frag\[address\] || '')] is the stored text, or the empty string. *)
Lemma stored_or_empty (store : gmap jsstring jsstring) (a : jsstring) :
  ToString (or_ (match store !! a with
                 | Some text => JStr text
                 | None => JUndefined
                 end) (JStr [])) = default [] (store !! a).
Proof. destruct (store !! a) as [[|c t]|]; reflexivity. Qed.

(** What the chain computes on a FLEX frame with text. *)
Lemma decode_flex_frame ev st a t c :
  flex_frame (ev_line ev) = Some (a, t, c) ->
  decode cfg w ev st =
    match c with
    | CodeF =>
        ({| frag := <[a := t]> (frag st); trace := trace st |},
         Normal {| l_datetime := flex_datetime cfg w ev; l_address := JStr a;
                   l_message := JBool false; l_trimMessage := JStr [] |})
    | CodeC =>
        ({| frag := delete a (frag st); trace := trace st |},
         Normal {| l_datetime := flex_datetime cfg w ev; l_address := JStr a;
                   l_message := JStr t;
                   l_trimMessage := JStr (default [] (frag st !! a) ++ t) |})
    | CodeK | CodeOther =>
        (st,
         Normal {| l_datetime := flex_datetime cfg w ev; l_address := JStr a;
                   l_message := JStr t; l_trimMessage := JStr t |})
    end.
Proof.
  intros H. rewrite decode_classify. unfold flex_frame in H.
  destruct (classify (ev_line ev)); try discriminate.
  unfold decoder, flex, flex_datetime.
  destruct (captured FLEX_ADDRESS_REGEX 1 _) as [ga|]; [|discriminate].
  destruct (test ALN_GPN_NUM_REGEX _); [|discriminate].
  destruct (captured FLEX_MESSAGE_REGEX 1 _) as [g|]; [|discriminate].
  injection H as <- <- <-. unfold_M. cbn [declared l_datetime].
  destruct (fragmentation (ev_line ev)); cbn; try reflexivity.
  by rewrite stored_or_empty.
Qed.

Lemma still_ret {A} (a : A) : still (mret a).
Proof. intros st st' c H. unfold_M. by inversion H. Qed.

Lemma still_return {A} : still (@return_ A).
Proof. intros st st' c H. unfold_M. by inversion H. Qed.

Lemma still_throw {A} e : still (@throw A e).
Proof. intros st st' c H. unfold_M. by inversion H. Qed.

Lemma still_console entry : still (console entry).
Proof. intros st st' c H. unfold_M. by inversion H. Qed.

Lemma still_bind {A B} (m : M A) (f : A -> M B) :
  still m -> (forall a, still (f a)) -> still (m ≫= f).
Proof.
  intros Hm Hf st st' c H. unfold mbind, M_bind in H.
  destruct (m st) as [st1 [a| |e]] eqn:E.
  - rewrite (Hf a _ _ _ H). eauto.
  - inversion H; subst. eauto.
  - inversion H; subst. eauto.
Qed.

End Frag.

Create HintDb still.
#[export] Hint Resolve still_ret still_return still_throw still_console : still.

Ltac still_step :=
  first
    [ apply still_bind; [ | intros ? ]
    | progress eauto with still
    | match goal with
      | |- still (match ?x with _ => _ end) => destruct x eqn:?
      | |- still (let '(_, _) := ?x in _) => destruct x
      end ].

Section FragFacts.

Variable cfg : config.
Variable w : world.

Lemma still_pocsag ev vars : still (pocsag cfg w ev vars).
Proof. unfold pocsag. repeat still_step. Qed.

Lemma still_eas ev vars : still (eas cfg w ev vars).
Proof. unfold eas. repeat still_step. Qed.

Lemma decode_frag ev st st' c :
  decode cfg w ev st = (st', c) ->
  frag st' = frag_update (ev_line ev) (frag st).
Proof.
  unfold frag_update.
  destruct (flex_frame (ev_line ev)) as [[[a t] code]|] eqn:F.
  - rewrite (decode_flex_frame cfg w _ st _ _ _ F).
    destruct code; intros H; inversion H; reflexivity.
  - rewrite decode_classify. unfold flex_frame in F.
    destruct (classify (ev_line ev)); unfold decoder.
    + apply still_pocsag.
    + unfold flex. revert F.
      destruct (captured FLEX_ADDRESS_REGEX 1 _) as [ga|].
      * destruct (test ALN_GPN_NUM_REGEX _).
        -- destruct (captured FLEX_MESSAGE_REGEX 1 _) as [g|]; [discriminate|].
           intros _. revert st st' c. repeat still_step.
        -- intros _. revert st st' c. repeat still_step.
      * intros _ H. unfold_M. cbn in H. by inversion H.
    + apply still_eas.
    + unfold non_matching. apply still_ret.
Qed.

(** The listener updates [frag] as the view of the line says. *)
Lemma on_line_frag ev st :
  frag (on_line cfg w ev st).1 = frag_update (ev_line ev) (frag st).
Proof.
  destruct (decode cfg w ev st) as [st1 [vars| |e]] eqn:E;
    pose proof (decode_frag _ _ _ _ E) as <-.
  - rewrite (on_line_decoded _ _ _ _ _ _ E).
    destruct (length_gt _ _) as [?|long]; [reflexivity|].
    destruct (long && _); reflexivity.
  - by rewrite (on_line_returned _ _ _ _ _ E).
  - by rewrite (on_line_thrown _ _ _ _ _ _ E).
Qed.

End FragFacts.

(** ** Delivery: the retry schedule *)

Section SenderFacts.

Variable rp : form -> Z -> bool.

Lemma sendPage_delivered message retries :
  rp message retries = true ->
  sendPage rp message retries = [Request message retries].
Proof. intros H. rewrite sendPage_equation_1. by rewrite H. Qed.

Lemma sendPage_retry message retries :
  rp message retries = false -> (retries < 10)%Z ->
  sendPage rp message retries =
    Request message retries :: LogFailed
      :: LogRetrying (2 ^ retries * 1000) :: SetTimeout (2 ^ retries * 1000) (retries + 1)
      :: sendPage rp message (retries + 1).
Proof.
  intros H Hlt. rewrite sendPage_equation_1 at 1. rewrite H.
  destruct (Z_lt_dec retries 10); [reflexivity|contradiction].
Qed.

Lemma sendPage_give_up message retries :
  rp message retries = false -> ¬ (retries < 10)%Z ->
  sendPage rp message retries = [Request message retries; LogFailed; LogGivingUp].
Proof.
  intros H Hge. rewrite sendPage_equation_1. rewrite H.
  destruct (Z_lt_dec retries 10); [contradiction|reflexivity].
Qed.

(** Whatever the outcomes of the requests, a delivery that starts at
    [retries] sets at most [10 - retries] timers. *)
Lemma sendPage_timers_bounded message (n : nat) :
  forall retries, (0 <= retries)%Z -> Z.to_nat (10 - retries) = n ->
  (length (delays (sendPage rp message retries)) <= n)%nat.
Proof.
  induction n as [|n IH]; intros retries H0 Hn.
  - destruct (rp message retries) eqn:R.
    + rewrite sendPage_delivered by done. cbn. lia.
    + rewrite sendPage_give_up by (done || lia). cbn. lia.
  - destruct (rp message retries) eqn:R.
    + rewrite sendPage_delivered by done. cbn. lia.
    + rewrite sendPage_retry by (done || lia).
      change (length (delays (sendPage rp message (retries + 1))) < S n)%nat.
      apply Nat.lt_succ_r, IH; lia.
Qed.

End SenderFacts.

(** C2. When the first send of a message and every re-attempt fail,
    [sendPage] makes exactly ten retries, after the delays
    1000, 2000, 4000, ..., 512000 ms in that order, each delay being
    [2 ^ retries * 1000] for the count of retries made so far; the tenth
    retry is the last request, and the delivery ends by giving up. *)
Theorem sendPage_retry_schedule (rp : form -> Z -> bool) (message : form) :
  (forall retries, (0 <= retries <= 10)%Z -> rp message retries = false) ->
  let evs := sendPage rp message 0 in
  delays evs = map (fun retries => 2 ^ retries * 1000)%Z [0; 1; 2; 3; 4; 5; 6; 7; 8; 9]%Z
  /\ delays evs = [1000; 2000; 4000; 8000; 16000; 32000; 64000; 128000;
                   256000; 512000]%Z
  /\ requests evs = [0; 1; 2; 3; 4; 5; 6; 7; 8; 9; 10]%Z
  /\ length (delays evs) = 10%nat
  /\ last evs = Some LogGivingUp.
Proof.
  intros Hfail evs. subst evs.
  repeat (rewrite sendPage_retry; [|apply Hfail; lia|lia]; simpl Z.add).
  rewrite sendPage_give_up; [|apply Hfail; lia|lia].
  repeat split.
Qed.

Lemma sendPage_retry_schedule_witness :
  delays (sendPage (fun _ _ => false) blank_form 0)
  = [1000; 2000; 4000; 8000; 16000; 32000; 64000; 128000; 256000; 512000]%Z
  /\ requests (sendPage (fun _ _ => false) blank_form 0)
     = [0; 1; 2; 3; 4; 5; 6; 7; 8; 9; 10]%Z.
Proof.
  pose proof (sendPage_retry_schedule (fun _ _ => false) blank_form
                (fun _ _ => eq_refl)) as H.
  split; [exact (proj1 (proj2 H))|exact (proj1 (proj2 (proj2 H)))].
Defined.

(** ** The forms a line sends *)

Section Emission.

Variable cfg : config.
Variable w : world.

Lemma on_line_sent ev st :
  sent (trace (on_line cfg w ev st).1) = sent (trace st) ++ emitted cfg w ev st.
Proof.
  unfold emitted, passes.
  destruct (decode cfg w ev st) as [st1 [vars| |e]] eqn:E;
    pose proof (quiet_decode cfg w ev _ _ _ E) as Q.
  - rewrite (on_line_decoded _ _ _ _ _ _ E).
    destruct (length_gt _ _) as [?|long].
    + cbn [fst]. rewrite !sent_record_console, Q. by rewrite app_nil_r.
    + destruct (long && _); cbn [fst].
      * by rewrite sent_record_call, sent_record_console, Q.
      * rewrite sent_record_console, Q. by rewrite app_nil_r.
  - rewrite (on_line_returned _ _ _ _ _ E). cbn [fst]. by rewrite Q, app_nil_r.
  - rewrite (on_line_thrown _ _ _ _ _ _ E). cbn [fst].
    rewrite !sent_record_console, Q. by rewrite app_nil_r.
Qed.

Lemma passes_inv vars :
  passes vars = true ->
  exists a, l_address vars = JStr a /\ (2 < length a)%nat
            /\ truthy (l_message vars) = true.
Proof.
  unfold passes, length_gt. destruct (l_address vars); try discriminate.
  intros [H1 H2]%andb_true_iff. apply Nat.ltb_lt in H1. eauto.
Qed.

End Emission.

(** ** The timestamp flag *)

(** C3. The flag [useTimestamp] is true whatever the configuration holds,
    also when it sets [useTimestamp] to [false]: with such a configuration
    a POCSAG Alpha payload and a FLEX line still have their embedded
    timestamp parsed into [datetime] (here 1496577600, the clock reads
    1496577605), and the Alpha text still loses its timestamp. *)
Theorem useTimestamp_ignores_false :
  (forall cfg, truthy (useTimestamp cfg) = true)
  /\ cfg_useTimestamp sample_config = JBool false
  /\ useTimestamp sample_config = JBool true
  /\ sent (trace (on_line sample_config sample_world (event_of pocsag_line)
                    initial_state).1)
     = [{| f_address := U "1234567"; f_message := JStr (U "TEST MESSAGE");
           f_datetime := 1496577600; f_source := JStr (U "TEST") |}]
  /\ sent (trace (on_line sample_config sample_world (event_of flex_other_line)
                    initial_state).1)
     = [{| f_address := U "007654321"; f_message := JStr (U "IN BETWEEN");
           f_datetime := 1496577600; f_source := JStr (U "TEST") |}].
Proof.
  split.
  { intros cfg. unfold useTimestamp, or_.
    destruct (truthy (cfg_useTimestamp cfg)) eqn:E; [exact E|reflexivity]. }
  repeat split; vm_compute; reflexivity.
Qed.

(** ** Classification *)

(** C7. The decoding chain runs the decoder of the family of the line,
    and of no other; the family is the first of POCSAG, FLEX, EAS whose
    pattern matches the line, UNKNOWN when none does.  A line that
    matches both the POCSAG and the FLEX pattern is decoded as POCSAG. *)
Theorem dispatch_by_precedence (cfg : config) (w : world) (ev : line_event) :
  let line := ev_line ev in
  decode cfg w ev = decoder cfg w (classify line) ev (declared ev)
  /\ (classify line = POCSAG <-> test POCSAG_TEST_REGEX line = true)
  /\ (classify line = FLEX <->
        test POCSAG_TEST_REGEX line = false /\ test FLEX_ADDRESS_REGEX line = true)
  /\ (classify line = EAS <->
        test POCSAG_TEST_REGEX line = false /\ test FLEX_ADDRESS_REGEX line = false
        /\ test EAS_REGEX line = true)
  /\ (classify line = UNKNOWN <->
        test POCSAG_TEST_REGEX line = false /\ test FLEX_ADDRESS_REGEX line = false
        /\ test EAS_REGEX line = false)
  /\ (test POCSAG_TEST_REGEX line = true -> test FLEX_ADDRESS_REGEX line = true ->
      decode cfg w ev = pocsag cfg w ev (declared ev)).
Proof.
  intros line. split; [apply decode_classify|].
  unfold decode, classify, family_patterns, first_match. fold line.
  destruct (test POCSAG_TEST_REGEX line), (test FLEX_ADDRESS_REGEX line),
    (test EAS_REGEX line); intuition congruence.
Qed.

Lemma dispatch_by_precedence_witness :
  test POCSAG_TEST_REGEX (U pocsag_flex_line) = true
  /\ test FLEX_ADDRESS_REGEX (U pocsag_flex_line) = true
  /\ decode sample_config sample_world (event_of pocsag_flex_line)
     = pocsag sample_config sample_world (event_of pocsag_flex_line)
         (declared (event_of pocsag_flex_line)).
Proof.
  assert (H1 : test POCSAG_TEST_REGEX (U pocsag_flex_line) = true)
    by (vm_compute; reflexivity).
  assert (H2 : test FLEX_ADDRESS_REGEX (U pocsag_flex_line) = true)
    by (vm_compute; reflexivity).
  split; [exact H1|]. split; [exact H2|].
  exact (proj2 (proj2 (proj2 (proj2 (proj2
    (dispatch_by_precedence sample_config sample_world
       (event_of pocsag_flex_line)))))) H1 H2).
Defined.

(** ** The emission filter *)

(** C8. A line hands a form to [sendPage] only if its chain decoded an
    address that is a string of more than two units and a message that is
    truthy, so neither [false] nor absent; it then hands over exactly one
    form.  A line whose decoded variables fail the test is logged as a
    plain line and sends nothing. *)
Theorem emission_filter (cfg : config) (w : world) (ev : line_event) (st : state) :
  let st' := (on_line cfg w ev st).1 in
  (sent (trace st') <> sent (trace st) ->
   exists st1 vars a,
     decode cfg w ev st = (st1, Normal vars)
     /\ l_address vars = JStr a /\ (2 < length a)%nat
     /\ truthy (l_message vars) = true
     /\ l_message vars <> JBool false /\ l_message vars <> JUndefined
     /\ sent (trace st') = sent (trace st) ++ [form_of cfg vars])
  /\ (forall st1 vars long,
        decode cfg w ev st = (st1, Normal vars) ->
        length_gt (l_address vars) 2 = inr long ->
        long && truthy (l_message vars) = false ->
        st' = record (Console (LoggedLine (ev_time ev) (ev_line ev))) st1
        /\ sent (trace st') = sent (trace st)).
Proof.
  intros st'. subst st'. split.
  - rewrite on_line_sent. unfold emitted.
    destruct (decode cfg w ev st) as [st1 [vars| |e]] eqn:E;
      try (rewrite app_nil_r; congruence).
    destruct (passes vars) eqn:P; [|rewrite app_nil_r; congruence].
    intros _. destruct (passes_inv _ P) as (a & Ha & Hlen & Hm).
    exists st1, vars, a. repeat split; auto.
    + intros Hf. rewrite Hf in Hm. discriminate.
    + intros Hu. rewrite Hu in Hm. discriminate.
  - intros st1 vars long E L F.
    rewrite on_line_sent. unfold emitted, passes. rewrite E, L, F, app_nil_r.
    rewrite (on_line_decoded _ _ _ _ _ _ E), L, F. auto.
Qed.

Lemma emission_filter_witness :
  (exists a,
     (2 < length a)%nat
     /\ sent (trace (on_line sample_config sample_world (event_of pocsag_line)
                       initial_state).1)
        = [{| f_address := padStart 7 48 a; f_message := JStr (U "TEST MESSAGE");
              f_datetime := 1496577600; f_source := JStr (U "TEST") |}])
  /\ (on_line sample_config sample_world (event_of noise_line) initial_state).1
     = record (Console (LoggedLine (U "2017-06-04 12:00:05") (U noise_line)))
         initial_state.
Proof.
  split.
  - destruct (proj1 (emission_filter sample_config sample_world
                       (event_of pocsag_line) initial_state))
      as (st1 & vars & a & E & Ha & Hlen & _ & _ & _ & Hs).
    { vm_compute. discriminate. }
    exists a. split; [exact Hlen|].
    rewrite Hs. vm_compute in E. injection E as _ <-.
    injection Ha as <-. vm_compute. reflexivity.
  - refine (proj1 (proj2 (emission_filter sample_config sample_world
                            (event_of noise_line) initial_state)
                     initial_state (declared (event_of noise_line)) false _ _ _));
      vm_compute; reflexivity.
Defined.

(** ** Lines that decode to nothing *)

(** C9. A line of no family, and a line of the EAS family on which the
    SAME decoder, called with the configured filters, returns no result,
    hand nothing to [sendPage]. *)
Theorem no_delivery_without_message (cfg : config) (w : world)
    (ev : line_event) (st : state) :
  (classify (ev_line ev) = UNKNOWN ->
   sent (trace (on_line cfg w ev st).1) = sent (trace st))
  /\ (classify (ev_line ev) = EAS ->
      (forall opts, EASOpts cfg = Some opts ->
         SAME_decode w (ev_line ev) (excludeEvents opts) (includeFIPS opts)
         = DecodeNothing) ->
      sent (trace (on_line cfg w ev st).1) = sent (trace st)).
Proof.
  split.
  - intros C. rewrite on_line_sent. unfold emitted.
    rewrite decode_classify, C. cbn. apply app_nil_r.
  - intros C D. rewrite on_line_sent. unfold emitted.
    rewrite decode_classify, C. unfold decoder, eas.
    destruct (EASOpts cfg) as [opts|] eqn:O;
      [rewrite (D opts eq_refl)|]; cbn; apply app_nil_r.
Qed.

Lemma no_delivery_without_message_witness :
  classify (U noise_line) = UNKNOWN
  /\ classify (U eas_line) = EAS
  /\ SAME_decode filtering_world (U eas_line) JNull JNull <> DecodeNothing
  /\ sent (trace (on_line sample_config sample_world (event_of noise_line)
                    initial_state).1) = []
  /\ sent (trace (on_line sample_config filtering_world (event_of eas_line)
                    initial_state).1) = [].
Proof.
  assert (H1 : classify (ev_line (event_of noise_line)) = UNKNOWN)
    by (vm_compute; reflexivity).
  assert (H2 : classify (ev_line (event_of eas_line)) = EAS)
    by (vm_compute; reflexivity).
  split; [exact H1|]. split; [exact H2|]. split; [discriminate|]. split.
  - exact (proj1 (no_delivery_without_message sample_config sample_world
                    (event_of noise_line) initial_state) H1).
  - refine (proj2 (no_delivery_without_message sample_config filtering_world
                     (event_of eas_line) initial_state) H2 _).
    intros opts O. injection O as <-. reflexivity.
Defined.

(** ** Exceptions *)

(** C10. No exception leaves the listener: it completes normally on every
    line and in every state.  An exception thrown in the [try] block is
    caught, the line and the exception are written to the console, and
    the state is otherwise the one at the throw.  Hence the process never
    ends on an exception, and every line of the input is handled, each in
    the state its predecessor left. *)
Theorem listener_never_throws (cfg : config) (w : world) :
  (forall ev st, exists st', on_line cfg w ev st = (st', Normal tt))
  /\ (forall ev st st1 e,
        try_block cfg w ev st = (st1, Thrown e) ->
        on_line cfg w ev st =
          (record (Console (ErrorValue e))
             (record (Console (ErrorProcessingLine (ev_line ev))) st1), Normal tt))
  /\ (forall evs st,
        read_lines cfg w evs st
        = (foldl (fun s ev => (on_line cfg w ev s).1) st evs, Running)).
Proof.
  split; [apply on_line_normal|]. split.
  - intros ev st st1 e H. unfold on_line, call, try_catch. by rewrite H.
  - apply read_lines_foldl.
Qed.

Lemma listener_never_throws_witness :
  try_block bare_config sample_world (event_of eas_line) initial_state
  = (initial_state, Thrown TypeError)
  /\ on_line bare_config sample_world (event_of eas_line) initial_state
     = (record (Console (ErrorValue TypeError))
          (record (Console (ErrorProcessingLine (U eas_line))) initial_state),
        Normal tt).
Proof.
  assert (H : try_block bare_config sample_world (event_of eas_line) initial_state
              = (initial_state, Thrown TypeError)) by (vm_compute; reflexivity).
  split; [exact H|].
  exact (proj1 (proj2 (listener_never_throws bare_config sample_world)) _ _ _ _ H).
Defined.

(** ** The fragment store *)

Section Fragments.

Variable cfg : config.
Variable w : world.

Lemma frag_update_untouched (a line : jsstring) (store : gmap jsstring jsstring) :
  touches a line = false -> frag_update line store !! a = store !! a.
Proof.
  unfold touches, frag_update.
  destruct (flex_frame line) as [[[a' t] [| | |]]|]; try reflexivity.
  - intros H. apply bool_decide_eq_false in H. by rewrite lookup_insert_ne.
  - intros H. apply bool_decide_eq_false in H. by rewrite lookup_delete_ne.
Qed.

Lemma foldl_untouched a mids st :
  Forall (fun ev => touches a (ev_line ev) = false) mids ->
  frag (foldl (fun s ev => (on_line cfg w ev s).1) st mids) !! a = frag st !! a.
Proof.
  intros H. revert st. induction H as [|ev mids Hev _ IH]; intros st; [reflexivity|].
  cbn [foldl]. rewrite IH, on_line_frag. by apply frag_update_untouched.
Qed.

(** A fragment frame sends nothing. *)
Lemma emitted_fragment ev st a t :
  flex_frame (ev_line ev) = Some (a, t, CodeF) -> emitted cfg w ev st = [].
Proof.
  intros F. unfold emitted. rewrite (decode_flex_frame cfg w _ st _ _ _ F).
  unfold passes. cbn. by rewrite andb_false_r.
Qed.

(** A completion frame sends the stored text followed by its own. *)
Lemma emitted_completion ev st a t :
  flex_frame (ev_line ev) = Some (a, t, CodeC) ->
  (2 < length a)%nat -> t <> [] ->
  emitted cfg w ev st =
    [{| f_address := padDigits (JStr a) 7;
        f_message := JStr (default [] (frag st !! a) ++ t);
        f_datetime := flex_datetime cfg w ev;
        f_source := identifier cfg |}].
Proof.
  intros F Ha Ht. unfold emitted. rewrite (decode_flex_frame cfg w _ st _ _ _ F).
  unfold passes, form_of.
  cbn [l_address l_message l_trimMessage l_datetime length_gt truthy].
  apply Nat.ltb_lt in Ha. rewrite Ha.
  destruct t; [contradiction|reflexivity].
Qed.

Lemma emitted_completion_stored ev st a t stored :
  flex_frame (ev_line ev) = Some (a, t, CodeC) ->
  (2 < length a)%nat -> t <> [] ->
  frag st !! a = Some stored ->
  emitted cfg w ev st =
    [{| f_address := padDigits (JStr a) 7;
        f_message := JStr (stored ++ t);
        f_datetime := flex_datetime cfg w ev;
        f_source := identifier cfg |}].
Proof.
  intros F Ha Ht Hs. rewrite (emitted_completion _ _ _ _ F Ha Ht). by rewrite Hs.
Qed.

End Fragments.

(** C6. The fragment store is a map, one text per address.  A FLEX frame
    with code F stores its text under its address, whatever was stored
    there, and sends nothing; a frame with code C removes the entry of its
    address; every other line leaves the store as it was. *)
Theorem fragment_store_update (cfg : config) (w : world) (ev : line_event)
    (st : state) :
  let st' := (on_line cfg w ev st).1 in
  match flex_frame (ev_line ev) with
  | Some (a, text, CodeF) =>
      frag st' = <[a := text]> (frag st) /\ frag st' !! a = Some text
      /\ sent (trace st') = sent (trace st)
  | Some (a, _, CodeC) =>
      frag st' = delete a (frag st) /\ frag st' !! a = None
  | _ => frag st' = frag st
  end.
Proof.
  intros st'. subst st'.
  pose proof (on_line_frag cfg w ev st) as H. unfold frag_update in H.
  pose proof (on_line_sent cfg w ev st) as S.
  destruct (flex_frame (ev_line ev)) as [[[a t] [| | |]]|] eqn:F; auto.
  - rewrite H. rewrite lookup_insert_eq.
    rewrite (emitted_fragment _ _ _ _ _ _ F), app_nil_r in S. auto.
  - rewrite H. by rewrite lookup_delete_eq.
Qed.

(** C1, as the handler has it.  Take an address of more than two units, a
    FLEX frame for it with code F and text [t1], later a FLEX frame for it
    with code C and a non-empty text [t2], and in between only lines that
    are no F or C frame for that address.  The F frame sends nothing, the
    C frame sends exactly one form, whose message is [t1] followed by [t2]
    with nothing in between, and afterwards the store has no entry for
    the address.  The texts are the trimmed captures. *)
Theorem flex_fragment_round_trip (cfg : config) (w : world)
    (ev1 ev2 : line_event) (mids : list line_event) (st : state)
    (a t1 t2 : jsstring) :
  flex_frame (ev_line ev1) = Some (a, t1, CodeF) ->
  Forall (fun ev => touches a (ev_line ev) = false) mids ->
  flex_frame (ev_line ev2) = Some (a, t2, CodeC) ->
  (2 < length a)%nat -> t2 <> [] ->
  let st1 := (on_line cfg w ev1 st).1 in
  let st2 := foldl (fun s ev => (on_line cfg w ev s).1) st1 mids in
  let st3 := (on_line cfg w ev2 st2).1 in
  read_lines cfg w (ev1 :: mids ++ [ev2]) st = (st3, Running)
  /\ sent (trace st1) = sent (trace st)
  /\ (exists f, sent (trace st3) = sent (trace st2) ++ [f]
                /\ f_message f = JStr (t1 ++ t2)
                /\ f_address f = padStart 7 48 a)
  /\ frag st3 !! a = None.
Proof.
  intros F1 Hmids F2 Ha Ht2 st1 st2 st3. split; [|split; [|split]].
  - rewrite read_lines_foldl. cbn [foldl]. by rewrite foldl_app.
  - subst st1. rewrite on_line_sent.
    rewrite (emitted_fragment _ _ _ _ _ _ F1). apply app_nil_r.
  - assert (Hst2 : frag st2 !! a = Some t1).
    { subst st2. rewrite foldl_untouched by assumption.
      subst st1. rewrite on_line_frag. unfold frag_update. rewrite F1.
      apply lookup_insert_eq. }
    subst st3. rewrite on_line_sent.
    rewrite (emitted_completion_stored _ _ _ _ _ _ _ F2 Ha Ht2 Hst2).
    eexists. split; [reflexivity|]. split; reflexivity.
  - subst st3. rewrite on_line_frag. unfold frag_update. rewrite F2.
    apply lookup_delete_eq.
Qed.

Lemma flex_fragment_round_trip_witness :
  map f_message
    (sent (trace (read_lines sample_config sample_world
                    [event_of flex_start_line; event_of flex_other_line;
                     event_of flex_end_line] initial_state).1))
  = [JStr (U "IN BETWEEN"); JStr (U "HELLOWORLD")]
  /\ frag (read_lines sample_config sample_world
             [event_of flex_start_line; event_of flex_other_line;
              event_of flex_end_line] initial_state).1 !! U "001234567" = None.
Proof.
  destruct (flex_fragment_round_trip sample_config sample_world
              (event_of flex_start_line) (event_of flex_end_line)
              [event_of flex_other_line] initial_state
              (U "001234567") (U "HELLO") (U "WORLD"))
    as (R & _ & (f & S & M & _) & G).
  - vm_compute. reflexivity.
  - repeat constructor.
  - vm_compute. reflexivity.
  - vm_compute. lia.
  - discriminate.
  - cbn [app] in R.
    rewrite R. cbn [fst]. split; [|exact G].
    rewrite S, map_app. cbn [map]. rewrite M.
    vm_compute. reflexivity.
Defined.

(** The claim C1 as stated fails on these two inputs: the captures
    ["HELLO "] and ["WORLD"] give the one message ["HELLOWORLD"], and an
    address of two digits gives no message at all. *)
Lemma flex_round_trip_drops_space :
  captured FLEX_MESSAGE_REGEX 1 (U flex_start_line) = Some (U "HELLO ")
  /\ captured FLEX_MESSAGE_REGEX 1 (U flex_end_line) = Some (U "WORLD")
  /\ map f_message
       (sent (trace (read_lines sample_config sample_world
                       [event_of flex_start_line; event_of flex_end_line]
                       initial_state).1))
     = [JStr (U "HELLOWORLD")]
  /\ JStr (U "HELLOWORLD") <> JStr (U "HELLO WORLD")
  /\ flex_frame (U flex_short_start_line) = Some (U "12", U "HELLO", CodeF)
  /\ flex_frame (U flex_short_end_line) = Some (U "12", U "WORLD", CodeC)
  /\ sent (trace (read_lines sample_config sample_world
                    [event_of flex_short_start_line; event_of flex_short_end_line]
                    initial_state).1)
     = [].
Proof.
  repeat split; try (vm_compute; reflexivity). discriminate.
Qed.

(** ** The form of an emitted message *)

Section Forms.

Variable cfg : config.
Variable w : world.

Lemma emitted_inv ev st f :
  emitted cfg w ev st = [f] ->
  exists st1 vars,
    decode cfg w ev st = (st1, Normal vars) /\ passes vars = true
    /\ f = form_of cfg vars.
Proof.
  unfold emitted.
  destruct (decode cfg w ev st) as [st1 [vars| |e]]; try discriminate.
  destruct (passes vars) eqn:P; [|discriminate].
  intros [= <-]. by exists st1, vars.
Qed.

Lemma sent_inv ev st f :
  sent (trace (on_line cfg w ev st).1) = sent (trace st) ++ [f] ->
  emitted cfg w ev st = [f].
Proof. rewrite on_line_sent. apply app_inv_head. Qed.

(** [padStart] fills up to the width and never cuts. *)
Lemma padStart_length n c s : length (padStart n c s) = Nat.max n (length s).
Proof. unfold padStart. rewrite length_app, length_replicate. lia. Qed.

(** The message variables the POCSAG branch can end with. *)
Lemma pocsag_message ev vars0 st st1 vars :
  l_message vars0 = JBool false ->
  pocsag cfg w ev vars0 st = (st1, Normal vars) ->
  l_message vars = JBool false
  \/ exists m, l_message vars = JStr m
               /\ (l_trimMessage vars = JStr (trim (strip_tokens m))
                   \/ l_trimMessage vars = JStr (strip_tokens m)).
Proof.
  intros H0. unfold pocsag. unfold_M.
  repeat case_match; intros; invert_pairs; cbn; eauto.
Qed.

(** The FLEX branch ends with a truthy message on frames with text only. *)
Lemma flex_message ev st st1 vars :
  classify (ev_line ev) = FLEX ->
  decode cfg w ev st = (st1, Normal vars) ->
  truthy (l_message vars) = true ->
  exists s, l_trimMessage vars = JStr s /\ s <> [].
Proof.
  intros C E T.
  destruct (flex_frame (ev_line ev)) as [[[a t] code]|] eqn:F.
  - rewrite (decode_flex_frame cfg w _ st _ _ _ F) in E.
    destruct code; invert_pairs; cbn in T; try discriminate;
      destruct t as [|c t]; try discriminate; eexists; split; eauto.
    destruct (default [] (frag st !! a)); discriminate.
  - rewrite decode_classify, C in E. unfold flex_frame in F. rewrite C in F.
    unfold decoder, flex in E. unfold_M.
    repeat case_match; invert_pairs; cbn in T; discriminate.
Qed.

Lemma eas_message ev vars0 st st1 vars :
  l_trimMessage vars0 = JStr [] -> l_message vars0 = JBool false ->
  eas cfg w ev vars0 st = (st1, Normal vars) ->
  truthy (l_message vars) = true ->
  l_trimMessage vars = l_message vars.
Proof.
  intros H1 H2. unfold eas. unfold_M.
  repeat case_match; intros; invert_pairs; cbn in *; try reflexivity.
  match goal with
  | F : l_message ?v = JBool false, T : truthy (l_message ?v) = true |- _ =>
      rewrite F in T; discriminate
  end.
Qed.

End Forms.

(** C4, as the handler has it.  The address of every emitted form is the
    decoded address, a string, filled on the left with ['0'] up to seven
    units and never cut: its length is the larger of seven and the length
    of the decoded address, so exactly seven when that address has at
    most seven units.  The decoded address ["123"] becomes ["0000123"]. *)
Theorem address_padding (cfg : config) (w : world) (ev : line_event)
    (st : state) (f : form) :
  (sent (trace (on_line cfg w ev st).1) = sent (trace st) ++ [f] ->
   exists st1 vars a,
     decode cfg w ev st = (st1, Normal vars) /\ l_address vars = JStr a
     /\ f_address f = replicate (7 - length a) 48 ++ a
     /\ length (f_address f) = Nat.max 7 (length a)
     /\ ((length a <= 7)%nat -> length (f_address f) = 7%nat))
  /\ padDigits (JStr (U "123")) 7 = U "0000123".
Proof.
  split; [|reflexivity]. intros H.
  destruct (emitted_inv _ _ _ _ _ (sent_inv _ _ _ _ _ H)) as (st1 & vars & E & P & ->).
  destruct (passes_inv _ P) as (a & Ha & _ & _).
  exists st1, vars, a. unfold form_of. cbn [f_address]. rewrite Ha.
  unfold padDigits. cbn [ToString]. rewrite padStart_length.
  repeat split; auto. lia.
Qed.

Lemma address_padding_witness :
  exists a,
    U "1234567" = replicate (7 - length a) 48 ++ a
    /\ length (U "1234567") = Nat.max 7 (length a).
Proof.
  destruct (proj1 (address_padding sample_config sample_world
                     (event_of pocsag_line) initial_state
                     {| f_address := U "1234567";
                        f_message := JStr (U "TEST MESSAGE");
                        f_datetime := 1496577600;
                        f_source := JStr (U "TEST") |}))
    as (st1 & vars & a & _ & _ & Hf & Hl & _).
  - vm_compute. reflexivity.
  - exists a. split; [exact Hf|exact Hl].
Defined.

(** The claim C4 as stated fails on a FLEX line: its nine-digit address
    is emitted with nine units. *)
Lemma address_longer_than_seven :
  map f_address
    (sent (trace (on_line sample_config sample_world (event_of flex_other_line)
                    initial_state).1))
  = [U "007654321"]
  /\ length (U "007654321") <> 7%nat.
Proof. split; [vm_compute; reflexivity|vm_compute; discriminate]. Qed.

(** C5, as the handler has it.  Every emitted form comes from decoded
    variables whose message is truthy, and its message field is the
    variable [trimMessage].  On a FLEX line that field is a non-empty
    string; on an EAS line it is the decoded message itself; on a POCSAG
    line it is the decoded text, a non-empty string, after the control
    tokens are stripped, and that may be the empty string. *)
Theorem emitted_message_text (cfg : config) (w : world) (ev : line_event)
    (st : state) (f : form) :
  sent (trace (on_line cfg w ev st).1) = sent (trace st) ++ [f] ->
  exists st1 vars,
    decode cfg w ev st = (st1, Normal vars)
    /\ f_message f = l_trimMessage vars
    /\ truthy (l_message vars) = true
    /\ match classify (ev_line ev) with
       | POCSAG =>
           exists m, l_message vars = JStr m /\ m <> []
                     /\ (f_message f = JStr (trim (strip_tokens m))
                         \/ f_message f = JStr (strip_tokens m))
       | FLEX => exists s, f_message f = JStr s /\ s <> []
       | EAS => f_message f = l_message vars
       | UNKNOWN => False
       end.
Proof.
  intros H.
  destruct (emitted_inv _ _ _ _ _ (sent_inv _ _ _ _ _ H)) as (st1 & vars & E & P & ->).
  destruct (passes_inv _ P) as (a & Ha & _ & T).
  exists st1, vars. repeat split; auto. cbn [form_of f_message].
  destruct (classify (ev_line ev)) eqn:C.
  - rewrite decode_classify, C in E.
    destruct (pocsag_message cfg w ev (declared ev) st st1 vars eq_refl E)
      as [F|(m & Hm & Ht)].
    + rewrite F in T. discriminate.
    + exists m. repeat split; auto. intros ->. rewrite Hm in T. discriminate.
  - eapply flex_message; eauto.
  - rewrite decode_classify, C in E. eapply eas_message; eauto; reflexivity.
  - rewrite decode_classify, C in E. unfold decoder, non_matching in E.
    unfold_M. invert_pairs. cbn in T. discriminate.
Qed.

Lemma emitted_message_text_witness :
  exists m, m <> []
    /\ (JStr (U "TEST MESSAGE") = JStr (trim (strip_tokens m))
        \/ JStr (U "TEST MESSAGE") = JStr (strip_tokens m)).
Proof.
  destruct (emitted_message_text sample_config sample_world
              (event_of pocsag_line) initial_state
              {| f_address := U "1234567"; f_message := JStr (U "TEST MESSAGE");
                 f_datetime := 1496577600; f_source := JStr (U "TEST") |})
    as (st1 & vars & _ & _ & _ & C).
  - vm_compute. reflexivity.
  - let fam := eval vm_compute in (classify (ev_line (event_of pocsag_line))) in
    change (classify (ev_line (event_of pocsag_line))) with fam in C.
    destruct C as (m & _ & Hm & Ht). exists m. split; [exact Hm|exact Ht].
Defined.

(** The claim C5 as stated fails on a POCSAG line whose text is one
    control token: the form is sent with the empty string as message. *)
Lemma emitted_message_empty :
  sent (trace (on_line sample_config sample_world (event_of pocsag_token_line)
                 initial_state).1)
  = [{| f_address := U "1234567"; f_message := JStr [];
        f_datetime := 1496577605; f_source := JStr (U "TEST") |}].
Proof. vm_compute. reflexivity. Qed.

(** * Further properties

    The parts of the script the properties above do not reach: the
    endpoint, the padding, the outcomes of a delivery, the branches of
    the handler taken one by one, and whole runs. *)

(** ** The endpoint *)

Lemma endsWith_app (p h : jsstring) : endsWith p (h ++ p) = true.
Proof.
  unfold endsWith. rewrite length_app.
  replace (length h + length p - length p)%nat with (length h) by lia.
  rewrite drop_app_length. rewrite bool_decide_true by done.
  rewrite andb_true_r. apply Nat.leb_le. lia.
Qed.

Lemma endsWith_inv (p s : jsstring) :
  endsWith p s = true -> exists h, s = h ++ p.
Proof.
  unfold endsWith. intros [_ H]%andb_true_iff. apply bool_decide_eq_true in H.
  exists (take (length s - length p) s).
  pose proof (take_drop (length s - length p) s) as T. rewrite H in T. done.
Qed.

Lemma slice_drop_last (h : jsstring) (x : jschar) : slice 0 (-1) (h ++ [x]) = h.
Proof.
  unfold slice, slice_index. cbn [Z.ltb Z.compare Z.to_nat].
  rewrite length_app. cbn [length].
  rewrite Nat.min_0_l, drop_0, Nat.sub_0_r.
  replace (Z.to_nat (Z.max (Z.of_nat (length h + 1) + -1) 0)) with (length h) by lia.
  apply take_app_length.
Qed.

(** X1. A host name that does not end in a slash gets the path
    ["/api/messages"] appended; the same host name with one trailing slash
    gives the same endpoint; of two trailing slashes one is kept. *)
Theorem uri_ignores_one_trailing_slash (hostname : jsstring) :
  endsWith (U "/") hostname = false ->
  uri hostname = hostname ++ U "/api/messages"
  /\ uri (hostname ++ U "/") = uri hostname
  /\ uri (hostname ++ U "//") = hostname ++ U "//api/messages".
Proof.
  intros H. unfold uri at 1 3. rewrite H. split; [done|]. split.
  - unfold uri. rewrite endsWith_app. change (U "/") with [47].
    by rewrite (slice_drop_last hostname 47).
  - unfold uri. change (U "//") with (U "/" ++ U "/"). rewrite app_assoc.
    rewrite endsWith_app. change (U "/") with [47].
    rewrite (slice_drop_last (hostname ++ [47]) 47).
    by rewrite <- app_assoc.
Qed.

Lemma uri_ignores_one_trailing_slash_witness :
  uri (U "http://pagermon.local/") = U "http://pagermon.local/api/messages".
Proof.
  exact (eq_trans
    (proj1 (proj2 (uri_ignores_one_trailing_slash (U "http://pagermon.local") eq_refl)))
    (proj1 (uri_ignores_one_trailing_slash (U "http://pagermon.local") eq_refl))).
Defined.

(** X2. Whatever the host name, the endpoint ends with ["/api/messages"],
    and what precedes the path is the host name, or the host name without
    its last slash. *)
Theorem uri_ends_with_path (hostname : jsstring) :
  endsWith (U "/api/messages") (uri hostname) = true
  /\ exists base, uri hostname = base ++ U "/api/messages"
                  /\ (hostname = base \/ hostname = base ++ U "/").
Proof.
  unfold uri. destruct (endsWith (U "/") hostname) eqn:E.
  - apply endsWith_inv in E as [h ->]. change (U "/") with [47].
    rewrite (slice_drop_last h 47). rewrite endsWith_app.
    split; [done|]. exists h. auto.
  - rewrite endsWith_app. split; [done|]. exists hostname. auto.
Qed.

(** ** Padding *)

(** X3. Padding is idempotent; it puts zeros, and only zeros, before the
    text of the value, up to the width; and up to the width leading zeros
    make no difference. *)
Theorem padDigits_idempotent (number : value) (digits : nat) :
  padDigits (JStr (padDigits number digits)) digits = padDigits number digits
  /\ (exists zeros, padDigits number digits = replicate zeros 48 ++ ToString number
                    /\ (zeros + length (ToString number)
                        = Nat.max digits (length (ToString number)))%nat)
  /\ (forall k a, number = JStr (replicate k 48 ++ a) ->
        (k + length a <= digits)%nat ->
        padDigits number digits = padDigits (JStr a) digits).
Proof.
  unfold padDigits, padStart. cbn [ToString]. split; [|split].
  - rewrite length_app, length_replicate.
    replace (digits - (digits - length (ToString number) + length (ToString number)))%nat
      with 0%nat by lia. done.
  - eexists. split; [reflexivity|]. lia.
  - intros k a -> H. cbn [ToString]. rewrite length_app, length_replicate.
    rewrite app_assoc, <- replicate_add. f_equal. f_equal. lia.
Qed.

Lemma padDigits_idempotent_witness :
  padDigits (JStr (U "00123")) 7 = padDigits (JStr (U "123")) 7.
Proof.
  apply (proj2 (proj2 (padDigits_idempotent (JStr (U "00123")) 7)) 2%nat (U "123")).
  - reflexivity.
  - vm_compute. lia.
Defined.

(** ** Outcomes of a delivery *)

Section Delivery.

Variable rp : form -> Z -> bool.
Variable message : form.

Lemma delays_retry retries rest :
  delays (Request message retries :: LogFailed
            :: LogRetrying (2 ^ retries * 1000)
            :: SetTimeout (2 ^ retries * 1000) (retries + 1) :: rest)
  = (2 ^ retries * 1000)%Z :: delays rest.
Proof. reflexivity. Qed.

Lemma requests_retry retries rest :
  requests (Request message retries :: LogFailed
              :: LogRetrying (2 ^ retries * 1000)
              :: SetTimeout (2 ^ retries * 1000) (retries + 1) :: rest)
  = retries :: requests rest.
Proof. reflexivity. Qed.

(** The trace of a delivery that fails from [retries] on and succeeds at
    the request numbered [k]. *)
Lemma sendPage_until_success (n : nat) :
  forall retries k,
    (0 <= retries <= k)%Z -> (k <= 10)%Z -> Z.to_nat (k - retries) = n ->
    (forall r, (retries <= r < k)%Z -> rp message r = false) ->
    rp message k = true ->
    requests (sendPage rp message retries) = seqZ retries (k - retries + 1)
    /\ delays (sendPage rp message retries)
       = map (fun r : Z => (2 ^ r * 1000)%Z) (seqZ retries (k - retries))
    /\ (LogGivingUp ∉ sendPage rp message retries)
    /\ last (sendPage rp message retries) = Some (Request message k).
Proof.
  induction n as [|n IH]; intros retries k Hr Hk Hn Hfail Hok.
  - assert (retries = k) as -> by lia.
    rewrite sendPage_delivered by done.
    replace (k - k + 1)%Z with 1%Z by lia. replace (k - k)%Z with 0%Z by lia.
    repeat split; try reflexivity.
    intros [H|H]%elem_of_cons; [discriminate|]. by apply elem_of_nil in H.
  - rewrite sendPage_retry by (try apply Hfail; lia).
    destruct (IH (retries + 1)%Z k) as (R & D & G & L); try lia; try done.
    { intros r Hr'. apply Hfail. lia. }
    rewrite delays_retry, requests_retry, R, D.
    rewrite (seqZ_cons retries (k - retries + 1)) by lia.
    rewrite (seqZ_cons retries (k - retries)) by lia.
    replace (Z.succ retries) with (retries + 1)%Z by lia.
    replace (Z.pred (k - retries + 1)) with (k - (retries + 1) + 1)%Z by lia.
    replace (Z.pred (k - retries)) with (k - (retries + 1))%Z by lia.
    repeat split; try reflexivity.
    + intros H. repeat (apply elem_of_cons in H as [H|H]; [discriminate|]).
      by apply G.
    + by rewrite !last_cons, L.
Qed.

(** The waiting time of a delivery that starts at [retries]. *)
Lemma total_delay_bounded (n : nat) :
  forall retries, (0 <= retries <= 10)%Z -> Z.to_nat (10 - retries) = n ->
  (0 <= total_delay (sendPage rp message retries)
   <= (2 ^ 10 - 2 ^ retries) * 1000)%Z.
Proof.
  induction n as [|n IH]; intros retries Hr Hn.
  - assert (retries = 10%Z) as -> by lia.
    destruct (rp message 10) eqn:R.
    + rewrite sendPage_delivered by done. cbn. lia.
    + rewrite sendPage_give_up by (done || lia). cbn. lia.
  - destruct (rp message retries) eqn:R.
    + rewrite sendPage_delivered by done. unfold total_delay. cbn [delays omap foldr].
      assert (2 ^ retries <= 2 ^ 10)%Z by (apply Z.pow_le_mono_r; lia). cbn. lia.
    + rewrite sendPage_retry by (done || lia).
      unfold total_delay. rewrite delays_retry. cbn [foldr].
      specialize (IH (retries + 1)%Z ltac:(lia) ltac:(lia)).
      unfold total_delay in IH.
      rewrite Z.pow_add_r in IH by lia. change (2 ^ 1)%Z with 2%Z in IH.
      assert (0 < 2 ^ retries)%Z by (apply Z.pow_pos_nonneg; lia). lia.
Qed.

(** Giving up from [retries] on means that every remaining request
    failed. *)
Lemma give_up_iff (n : nat) :
  forall retries, (0 <= retries <= 10)%Z -> Z.to_nat (10 - retries) = n ->
  LogGivingUp ∈ sendPage rp message retries
  <-> (forall r, (retries <= r <= 10)%Z -> rp message r = false).
Proof.
  induction n as [|n IH]; intros retries Hr Hn.
  - assert (retries = 10%Z) as -> by lia.
    destruct (rp message 10) eqn:R.
    + rewrite sendPage_delivered by done. split.
      * intros [H|H]%elem_of_cons; [discriminate|]. by apply elem_of_nil in H.
      * intros H. rewrite H in R by lia. discriminate.
    + rewrite sendPage_give_up by (done || lia). split.
      * intros _ r Hr'. by assert (r = 10%Z) as -> by lia.
      * intros _. repeat constructor.
  - destruct (rp message retries) eqn:R.
    + rewrite sendPage_delivered by done. split.
      * intros [H|H]%elem_of_cons; [discriminate|]. by apply elem_of_nil in H.
      * intros H. rewrite H in R by lia. discriminate.
    + rewrite sendPage_retry by (done || lia).
      specialize (IH (retries + 1)%Z ltac:(lia) ltac:(lia)). split.
      * intros H. repeat (apply elem_of_cons in H as [H|H]; [discriminate|]).
        intros r Hr'. destruct (decide (r = retries)) as [->|]; [done|].
        apply IH; [done|lia].
      * intros H. do 4 apply list_elem_of_further. apply IH.
        intros r Hr'. apply H. lia.
Qed.

(** The requests of a delivery that starts at [retries]. *)
Lemma requests_of_delivery (n : nat) :
  forall retries, (0 <= retries <= 10)%Z -> Z.to_nat (10 - retries) = n ->
  forall m r, Request m r ∈ sendPage rp message retries ->
              m = message /\ (retries <= r <= 10)%Z.
Proof.
  induction n as [|n IH]; intros retries Hr Hn m r.
  - assert (retries = 10%Z) as -> by lia.
    destruct (rp message 10) eqn:R.
    + rewrite sendPage_delivered by done.
      intros [[= -> ->]|H]%elem_of_cons; [split; [done|lia]|].
      by apply elem_of_nil in H.
    + rewrite sendPage_give_up by (done || lia).
      intros [[= -> ->]|H]%elem_of_cons; [split; [done|lia]|].
      repeat (apply elem_of_cons in H as [H|H]; [discriminate|]).
      by apply elem_of_nil in H.
  - destruct (rp message retries) eqn:R.
    + rewrite sendPage_delivered by done.
      intros [[= -> ->]|H]%elem_of_cons; [split; [done|lia]|].
      by apply elem_of_nil in H.
    + rewrite sendPage_retry by (done || lia).
      intros [[= -> ->]|H]%elem_of_cons; [split; [done|lia]|].
      repeat (apply elem_of_cons in H as [H|H]; [discriminate|]).
      destruct (IH (retries + 1)%Z ltac:(lia) ltac:(lia) _ _ H). split; [done|lia].
Qed.

End Delivery.

(** X4. A delivery whose requests fail until the one numbered [k]
    succeeds, for some [k] up to 10, issues the requests 0 to [k], waits
    [2 ^ r * 1000] ms after each failed request [r], ends with the request
    that succeeded and never reports giving up. *)
Theorem sendPage_stops_at_first_success (rp : form -> Z -> bool)
    (message : form) (k : Z) :
  (0 <= k <= 10)%Z ->
  (forall r, (0 <= r < k)%Z -> rp message r = false) ->
  rp message k = true ->
  requests (sendPage rp message 0) = seqZ 0 (k + 1)
  /\ delays (sendPage rp message 0)
     = map (fun r : Z => (2 ^ r * 1000)%Z) (seqZ 0 k)
  /\ (LogGivingUp ∉ sendPage rp message 0)
  /\ last (sendPage rp message 0) = Some (Request message k).
Proof.
  intros Hk Hfail Hok.
  pose proof (sendPage_until_success rp message (Z.to_nat k) 0 k
                ltac:(lia) ltac:(lia) ltac:(lia) Hfail Hok) as H.
  by rewrite Z.sub_0_r in H.
Qed.

Lemma sendPage_stops_at_first_success_witness :
  delays (sendPage (succeeds_at 3) blank_form 0) = [1000; 2000; 4000]%Z
  /\ requests (sendPage (succeeds_at 3) blank_form 0) = [0; 1; 2; 3]%Z.
Proof.
  destruct (sendPage_stops_at_first_success (succeeds_at 3) blank_form 3)
    as (R & D & _ & _).
  - lia.
  - intros r Hr. apply bool_decide_eq_false. lia.
  - reflexivity.
  - split; [exact D|exact R].
Defined.

(** X5. Whatever the outcomes of the requests, a delivery sets at most
    ten timers and waits at most 1023000 ms in all. *)
Theorem sendPage_backoff_bounded (rp : form -> Z -> bool) (message : form) :
  (length (delays (sendPage rp message 0)) <= 10)%nat
  /\ (0 <= total_delay (sendPage rp message 0) <= 1023000)%Z.
Proof.
  split.
  - by apply (sendPage_timers_bounded rp message 10 0).
  - by apply (total_delay_bounded rp message 10 0).
Qed.

(** X6. A delivery reports giving up exactly when the first request and
    all ten retries failed. *)
Theorem sendPage_gives_up_iff_all_fail (rp : form -> Z -> bool) (message : form) :
  LogGivingUp ∈ sendPage rp message 0
  <-> (forall r, (0 <= r <= 10)%Z -> rp message r = false).
Proof. by apply (give_up_iff rp message 10 0). Qed.

Lemma sendPage_gives_up_iff_all_fail_witness :
  LogGivingUp ∈ sendPage (fun _ _ => false) blank_form 0.
Proof.
  exact (proj2 (sendPage_gives_up_iff_all_fail (fun _ _ => false) blank_form)
           (fun _ _ => eq_refl)).
Defined.

(** X7. Every request of a delivery carries the form the delivery was
    started with, and a retry count from 0 to 10. *)
Theorem sendPage_requests_same_message (rp : form -> Z -> bool)
    (message m : form) (r : Z) :
  Request m r ∈ sendPage rp message 0 -> m = message /\ (0 <= r <= 10)%Z.
Proof. by apply (requests_of_delivery rp message 10 0). Qed.

Lemma sendPage_requests_same_message_witness :
  blank_form = blank_form /\ (0 <= 0 <= 10)%Z.
Proof.
  apply (sendPage_requests_same_message (fun _ _ => true) blank_form blank_form 0).
  rewrite sendPage_delivered by reflexivity. apply list_elem_of_here.
Defined.

(** ** The POCSAG branch *)

Lemma truthy_sendFunctionCode cfg :
  truthy (sendFunctionCode cfg) = truthy (cfg_sendFunctionCode cfg).
Proof.
  unfold sendFunctionCode, or_.
  by destruct (truthy (cfg_sendFunctionCode cfg)) eqn:E.
Qed.

(** The function code the POCSAG branch captures is one digit. *)
Lemma function_code_digit line d :
  captured POCSAG_FUNCTION_REGEX 3 line = Some d ->
  exists x, d = [x] /\ is_digit x = true.
Proof.
  unfold captured, exec.
  destruct (exec_from POCSAG_FUNCTION_REGEX 0 line) as [m|] eqn:E; [|discriminate].
  apply exec_from_sound in E as (s0 & s1 & M & _).
  cbn [group]. destruct (groups m 3%nat) as [[|x g']|] eqn:G; try discriminate.
  intros [= <-].
  unfold POCSAG_FUNCTION_REGEX in M. cbn [seq] in M.
  repeat match goal with
         | H : matches (RSeq _ _) _ _ _ _ |- _ => inversion H; subst; clear H
         end.
  match goal with
  | H : matches (RGroup _ _) _ _ _ (groups m) |- _ => inversion H; subst; clear H
  end.
  match goal with
  | H : matches digit _ _ ?rest _, E : _ = groups m |- _ =>
      inversion H; subst; rewrite <- E in G;
      unfold set_capture in G; cbn [Nat.eqb length] in G; injection G as G;
      replace (S (length rest) - length rest)%nat with 1%nat in G by lia
  end.
  cbn in G. injection G as <- <-. eauto.
Qed.

Section Branches.

Variable cfg : config.
Variable w : world.

(** X8. On a POCSAG line whose address is captured, the chain ends
    normally and leaves the store alone.  The decoded address is the
    trimmed capture, followed by the function code, one digit, exactly
    when the configuration sets [sendFunctionCode] and the code can be
    captured. *)
Theorem pocsag_decoded_address (ev : line_event) (st : state) (g : jsstring) :
  classify (ev_line ev) = POCSAG ->
  captured POCSAG_ADDRESS_REGEX 2 (ev_line ev) = Some g ->
  exists st1 vars,
    decode cfg w ev st = (st1, Normal vars)
    /\ frag st1 = frag st
    /\ match captured POCSAG_FUNCTION_REGEX 3 (ev_line ev) with
       | Some d =>
           (exists x, d = [x] /\ is_digit x = true)
           /\ l_address vars
              = JStr (if truthy (cfg_sendFunctionCode cfg) then trim g ++ d
                      else trim g)
       | None => l_address vars = JStr (trim g)
       end.
Proof.
  intros C G. rewrite decode_classify, C. unfold decoder.
  destruct (pocsag cfg w ev (declared ev) st) as [st1 c] eqn:E.
  pose proof (still_pocsag cfg w _ _ _ _ _ E) as S.
  revert E. unfold pocsag. rewrite G, truthy_sendFunctionCode.
  destruct (captured POCSAG_FUNCTION_REGEX 3 (ev_line ev)) as [d|] eqn:F.
  - pose proof (function_code_digit _ _ F) as D.
    unfold_M. repeat case_match; intros; invert_pairs;
      (eexists _, _; split; [reflexivity|]; split; [done|]; split; done).
  - unfold_M. repeat case_match; intros; invert_pairs;
      (eexists _, _; split; [reflexivity|]; split; done).
Qed.

(** X9. A line of the POCSAG or FLEX family whose address cannot be
    captured is dropped by the [return] of its branch: one error entry,
    no log entry of the line, no message, the store as it was. *)
Theorem address_failure_drops_line (ev : line_event) (st : state) :
  (classify (ev_line ev) = POCSAG ->
   captured POCSAG_ADDRESS_REGEX 2 (ev_line ev) = None ->
   on_line cfg w ev st
   = (record (Console (FailedAddress (ev_line ev))) st, Normal tt))
  /\ (classify (ev_line ev) = FLEX ->
      captured FLEX_ADDRESS_REGEX 1 (ev_line ev) = None ->
      on_line cfg w ev st
      = (record (Console (FailedFlexAddress (ev_line ev))) st, Normal tt)).
Proof.
  split; intros C G; apply on_line_returned;
    rewrite decode_classify, C; unfold decoder, pocsag, flex;
    rewrite G; reflexivity.
Qed.

(** X10. A POCSAG line without the Alpha marker sends a message only
    for a Numeric payload; the form is stamped with the clock, and its
    text is the trimmed capture with the tokens stripped. *)
Theorem pocsag_numeric_form (ev : line_event) (st : state) (f : form) :
  classify (ev_line ev) = POCSAG ->
  includes (U "Alpha:") (ev_line ev) = false ->
  sent (trace (on_line cfg w ev st).1) = sent (trace st) ++ [f] ->
  includes (U "Numeric:") (ev_line ev) = true
  /\ f_datetime f = ev_unix ev
  /\ exists g, captured NUMERIC_REGEX 1 (ev_line ev) = Some g
               /\ f_message f = JStr (strip_tokens (trim g)).
Proof.
  intros C A H.
  destruct (emitted_inv _ _ _ _ _ (sent_inv _ _ _ _ _ H)) as (st1 & vars & E & P & ->).
  destruct (passes_inv _ P) as (a & Ha & _ & T).
  rewrite decode_classify, C in E. unfold decoder, pocsag in E. rewrite A in E.
  unfold form_of. cbn [f_datetime f_message].
  unfold_M. revert E.
  repeat case_match; intros; invert_pairs; cbn in T; try discriminate;
    (split; [done|]; split; [done|]; eexists; split; reflexivity).
Qed.

Lemma decode_datetime ev st st1 vars :
  decode cfg w ev st = (st1, Normal vars) ->
  l_datetime vars = ev_unix ev \/ l_datetime vars = ev_unix_eas ev
  \/ exists timeString, moment_parse w timeString = Some (l_datetime vars).
Proof.
  rewrite decode_classify.
  destruct (classify (ev_line ev)); unfold decoder, pocsag, flex, eas, non_matching;
    unfold_M; repeat case_match; intros; invert_pairs; cbn; eauto.
Qed.

(** X11. The timestamp of a form is a reading of the clock or a value
    the date library returned for some text; on an EAS line it is the
    clock; and when the date library accepts no text at all, it is the
    clock on every line. *)
Theorem datetime_from_clock_or_text (ev : line_event) (st : state) (f : form) :
  sent (trace (on_line cfg w ev st).1) = sent (trace st) ++ [f] ->
  (f_datetime f = ev_unix ev \/ f_datetime f = ev_unix_eas ev
   \/ exists timeString, moment_parse w timeString = Some (f_datetime f))
  /\ (classify (ev_line ev) = EAS -> f_datetime f = ev_unix_eas ev)
  /\ ((forall timeString, moment_parse w timeString = None) ->
      classify (ev_line ev) <> EAS -> f_datetime f = ev_unix ev).
Proof.
  intros H.
  destruct (emitted_inv _ _ _ _ _ (sent_inv _ _ _ _ _ H)) as (st1 & vars & E & P & ->).
  destruct (passes_inv _ P) as (a & Ha & _ & T).
  unfold form_of. cbn [f_datetime]. split; [by eapply decode_datetime|]. split.
  - intros C. rewrite decode_classify, C in E. unfold decoder, eas in E.
    unfold_M. revert E.
    repeat case_match; intros; invert_pairs; cbn in T; try discriminate; done.
  - intros N C. rewrite decode_classify in E.
    destruct (classify (ev_line ev)); try done;
      unfold decoder, pocsag, flex, non_matching in E; unfold_M; revert E;
      repeat case_match; intros; invert_pairs; cbn; try done;
      match goal with
      | X : moment_parse w _ = Some _ |- _ => rewrite N in X; discriminate
      end.
Qed.

(** ** The FLEX branch *)

(** X12. A FLEX frame with code K, or with none of the codes F, C and K,
    whose address has more than two units and whose text is not empty, is
    logged and sent as it is, and the store stays as it was. *)
Theorem flex_complete_frame (ev : line_event) (st : state)
    (a t : jsstring) (code : frag_code) :
  flex_frame (ev_line ev) = Some (a, t, code) ->
  code = CodeK \/ code = CodeOther ->
  (2 < length a)%nat -> t <> [] ->
  let f := {| f_address := padDigits (JStr a) 7; f_message := JStr t;
              f_datetime := flex_datetime cfg w ev;
              f_source := identifier cfg |} in
  on_line cfg w ev st
  = (record (CallSendPage f 0)
       (record (Console (LoggedMessage (ev_time ev) (f_address f) (JStr t))) st),
     Normal tt).
Proof.
  intros F C Ha Ht f.
  assert (E : decode cfg w ev st
              = (st, Normal {| l_datetime := flex_datetime cfg w ev;
                               l_address := JStr a; l_message := JStr t;
                               l_trimMessage := JStr t |})).
  { rewrite (decode_flex_frame cfg w _ st _ _ _ F). by destruct C as [-> | ->]. }
  rewrite (on_line_decoded _ _ _ _ _ _ E).
  cbn [l_address l_message l_trimMessage length_gt truthy].
  apply Nat.ltb_lt in Ha. rewrite Ha. destruct t; [done|]. reflexivity.
Qed.

(** X13. A completion frame for an address with nothing stored is sent
    with its own text alone, and the store stays as it was. *)
Theorem completion_without_fragment (ev : line_event) (st : state)
    (a t : jsstring) :
  flex_frame (ev_line ev) = Some (a, t, CodeC) ->
  frag st !! a = None ->
  (2 < length a)%nat -> t <> [] ->
  sent (trace (on_line cfg w ev st).1)
  = sent (trace st)
    ++ [{| f_address := padDigits (JStr a) 7; f_message := JStr t;
           f_datetime := flex_datetime cfg w ev; f_source := identifier cfg |}]
  /\ frag (on_line cfg w ev st).1 = frag st.
Proof.
  intros F N Ha Ht. split.
  - rewrite on_line_sent, (emitted_completion _ _ _ _ _ _ F Ha Ht).
    assert (default [] (frag st !! a) = []) as -> by (by rewrite N). done.
  - rewrite on_line_frag. unfold frag_update. rewrite F. by apply delete_id.
Qed.

(** X14. A completion frame that fails the filter, by an address of at
    most two units or by an empty text, still removes the stored text:
    the fragment is lost and no message is sent. *)
Theorem completion_discards_fragment (ev : line_event) (st : state)
    (a t : jsstring) :
  flex_frame (ev_line ev) = Some (a, t, CodeC) ->
  (length a <= 2)%nat \/ t = [] ->
  sent (trace (on_line cfg w ev st).1) = sent (trace st)
  /\ frag (on_line cfg w ev st).1 !! a = None.
Proof.
  intros F H. split.
  - rewrite on_line_sent. unfold emitted.
    rewrite (decode_flex_frame cfg w _ st _ _ _ F). unfold passes.
    cbn [l_address l_message length_gt truthy].
    destruct H as [H| ->].
    + apply Nat.ltb_ge in H. rewrite H. apply app_nil_r.
    + rewrite andb_false_r. apply app_nil_r.
  - rewrite on_line_frag. unfold frag_update. rewrite F. apply lookup_delete_eq.
Qed.

(** X15. A FLEX line with an address and no content-type marker is
    logged as a plain line and nothing else; with a marker and no payload
    it is logged after one error entry. *)
Theorem flex_without_text (ev : line_event) (st : state) (g : jsstring) :
  classify (ev_line ev) = FLEX ->
  captured FLEX_ADDRESS_REGEX 1 (ev_line ev) = Some g ->
  (test ALN_GPN_NUM_REGEX (ev_line ev) = false ->
   on_line cfg w ev st
   = (record (Console (LoggedLine (ev_time ev) (ev_line ev))) st, Normal tt))
  /\ (test ALN_GPN_NUM_REGEX (ev_line ev) = true ->
      captured FLEX_MESSAGE_REGEX 1 (ev_line ev) = None ->
      on_line cfg w ev st
      = (record (Console (LoggedLine (ev_time ev) (ev_line ev)))
           (record (Console (FailedFlexMessage (ev_line ev))) st), Normal tt)).
Proof.
  intros C G. split.
  - intros T.
    erewrite on_line_decoded;
      [|rewrite decode_classify, C; unfold decoder, flex; rewrite G, T; reflexivity].
    cbn [l_address l_message length_gt truthy]. by rewrite andb_false_r.
  - intros T N.
    erewrite on_line_decoded;
      [|rewrite decode_classify, C; unfold decoder, flex; rewrite G, T, N; reflexivity].
    cbn [l_address l_message length_gt truthy]. by rewrite andb_false_r.
Qed.

(** ** The EAS branch *)

(** X16. Without an [EAS] object in the configuration every line of the
    EAS family ends in the [catch] block with a TypeError, whatever the
    decoder would say: the line and the error are logged, nothing is
    sent. *)
Theorem eas_without_configuration (ev : line_event) (st : state) :
  classify (ev_line ev) = EAS -> EASOpts cfg = None ->
  on_line cfg w ev st
  = (record (Console (ErrorValue TypeError))
       (record (Console (ErrorProcessingLine (ev_line ev))) st), Normal tt).
Proof.
  intros C N. apply on_line_thrown.
  rewrite decode_classify, C. unfold decoder, eas. by rewrite N.
Qed.

(** X17. A decoded alert with a truthy message is sent under the
    organisation code, with a dash and the event type appended when the
    configuration sets [addressAddType], provided that address has more
    than two units; the form carries the decoder's message and the
    clock. *)
Theorem eas_alert_form (ev : line_event) (st : state) (opts : eas_config)
    (d : decoded_message) (org : jsstring) :
  classify (ev_line ev) = EAS -> EASOpts cfg = Some opts ->
  SAME_decode w (ev_line ev) (excludeEvents opts) (includeFIPS opts) = Decoded d ->
  LLLL_ORG d = JStr org -> truthy (MESSAGE d) = true ->
  let address := if truthy (addressAddType opts)
                 then org ++ U "-" ++ ToString (type_ d) else org in
  (2 < length address)%nat ->
  sent (trace (on_line cfg w ev st).1)
  = sent (trace st)
    ++ [{| f_address := padDigits (JStr address) 7; f_message := MESSAGE d;
           f_datetime := ev_unix_eas ev; f_source := identifier cfg |}].
Proof.
  intros C O D Horg Hm address Ha.
  rewrite on_line_sent. unfold emitted.
  rewrite decode_classify, C. unfold decoder, eas. rewrite O, D, Horg.
  unfold_M. unfold passes, form_of.
  cbn [l_address l_message l_trimMessage l_datetime ToString].
  fold address.
  assert (length_gt (if truthy (addressAddType opts)
                     then JStr (org ++ U "-" ++ ToString (type_ d))
                     else JStr org) 2 = inr true) as ->.
  { subst address. destruct (truthy (addressAddType opts));
      cbn [length_gt]; f_equal; by apply Nat.ltb_lt. }
  rewrite Hm. cbn [andb]. subst address.
  by destruct (truthy (addressAddType opts)).
Qed.

(** X18. An alert whose decoder result has no organisation code: with
    [addressAddType] off the handler throws on [address.length], logs the
    error and sends nothing; with it on, the alert is sent under the
    address ["undefined-"] followed by the type. *)
Theorem eas_missing_organisation (ev : line_event) (st : state)
    (opts : eas_config) (d : decoded_message) :
  classify (ev_line ev) = EAS -> EASOpts cfg = Some opts ->
  SAME_decode w (ev_line ev) (excludeEvents opts) (includeFIPS opts) = Decoded d ->
  LLLL_ORG d = JUndefined ->
  (truthy (addressAddType opts) = false ->
   on_line cfg w ev st
   = (record (Console (ErrorValue TypeError))
        (record (Console (ErrorProcessingLine (ev_line ev))) st), Normal tt))
  /\ (truthy (addressAddType opts) = true -> truthy (MESSAGE d) = true ->
      sent (trace (on_line cfg w ev st).1)
      = sent (trace st)
        ++ [{| f_address := U "undefined-" ++ ToString (type_ d);
               f_message := MESSAGE d; f_datetime := ev_unix_eas ev;
               f_source := identifier cfg |}]).
Proof.
  intros C O D Horg. split.
  - intros A.
    erewrite on_line_decoded;
      [|rewrite decode_classify, C; unfold decoder, eas;
        rewrite O, D, Horg, A; reflexivity].
    reflexivity.
  - intros A Hm. rewrite on_line_sent. unfold emitted.
    rewrite decode_classify, C. unfold decoder, eas. rewrite O, D, Horg, A.
    unfold_M. unfold passes, form_of.
    cbn [l_address l_message l_trimMessage l_datetime ToString length_gt].
    rewrite Hm.
    change (U "undefined" ++ U "-" ++ ToString (type_ d))
      with (U "undefined-" ++ ToString (type_ d)).
    assert (L : (10 <= length (U "undefined-" ++ ToString (type_ d)))%nat).
    { rewrite length_app. cbn. lia. }
    assert ((2 <? length (U "undefined-" ++ ToString (type_ d)))%nat = true) as ->
      by (apply Nat.ltb_lt; lia).
    cbn [andb]. unfold padDigits, padStart. cbn [ToString].
    replace (7 - length (U "undefined-" ++ ToString (type_ d)))%nat with 0%nat by lia.
    reflexivity.
Qed.

End Branches.

(** ** Witnesses of the branches *)

Lemma pocsag_decoded_address_witness :
  exists st1 vars,
    decode plain_eas_config sample_world (event_of pocsag_numeric_line) initial_state
    = (st1, Normal vars)
    /\ l_address vars = JStr (U "6543210").
Proof.
  destruct (pocsag_decoded_address plain_eas_config sample_world
              (event_of pocsag_numeric_line) initial_state (U "  654321  "))
    as (st1 & vars & E & _ & A).
  - vm_compute. reflexivity.
  - vm_compute. reflexivity.
  - exists st1, vars. split; [exact E|].
    let c := eval vm_compute in
      (captured POCSAG_FUNCTION_REGEX 3 (ev_line (event_of pocsag_numeric_line))) in
    change (captured POCSAG_FUNCTION_REGEX 3 (ev_line (event_of pocsag_numeric_line)))
      with c in A.
    exact (proj2 A).
Defined.

Lemma address_failure_drops_line_witness :
  on_line sample_config sample_world (event_of pocsag_no_function_line) initial_state
  = (record (Console (FailedAddress (U pocsag_no_function_line))) initial_state,
     Normal tt)
  /\ on_line sample_config sample_world (event_of flex_no_address_line) initial_state
     = (record (Console (FailedFlexAddress (U flex_no_address_line))) initial_state,
        Normal tt).
Proof.
  split.
  - apply (proj1 (address_failure_drops_line sample_config sample_world
                    (event_of pocsag_no_function_line) initial_state));
      vm_compute; reflexivity.
  - apply (proj2 (address_failure_drops_line sample_config sample_world
                    (event_of flex_no_address_line) initial_state));
      vm_compute; reflexivity.
Defined.

Lemma pocsag_numeric_form_witness :
  exists g, captured NUMERIC_REGEX 1 (U pocsag_numeric_line) = Some g
            /\ JStr (U "0123-456") = JStr (strip_tokens (trim g)).
Proof.
  destruct (pocsag_numeric_form sample_config sample_world
              (event_of pocsag_numeric_line) initial_state
              {| f_address := U "0654321"; f_message := JStr (U "0123-456");
                 f_datetime := 1496577605; f_source := JStr (U "TEST") |})
    as (_ & _ & g & G & M).
  - vm_compute. reflexivity.
  - vm_compute. reflexivity.
  - vm_compute. reflexivity.
  - exists g. split; [exact G|exact M].
Defined.

Lemma datetime_from_clock_or_text_witness :
  (1496577600 = 1496577605 \/ 1496577600 = 1496577605
   \/ exists timeString, moment_parse sample_world timeString = Some 1496577600)%Z.
Proof.
  apply (proj1 (datetime_from_clock_or_text sample_config sample_world
                  (event_of pocsag_line) initial_state
                  {| f_address := U "1234567"; f_message := JStr (U "TEST MESSAGE");
                     f_datetime := 1496577600; f_source := JStr (U "TEST") |}
                  ltac:(vm_compute; reflexivity))).
Defined.

Lemma flex_complete_frame_witness :
  on_line sample_config sample_world (event_of flex_other_line) initial_state
  = (record (CallSendPage
               {| f_address := U "007654321"; f_message := JStr (U "IN BETWEEN");
                  f_datetime := 1496577600; f_source := JStr (U "TEST") |} 0)
       (record (Console (LoggedMessage (U "2017-06-04 12:00:05") (U "007654321")
                           (JStr (U "IN BETWEEN")))) initial_state),
     Normal tt).
Proof.
  rewrite (flex_complete_frame sample_config sample_world
             (event_of flex_other_line) initial_state
             (U "007654321") (U "IN BETWEEN") CodeK).
  - reflexivity.
  - vm_compute. reflexivity.
  - by left.
  - vm_compute. lia.
  - discriminate.
Defined.

Lemma completion_without_fragment_witness :
  sent (trace (on_line sample_config sample_world (event_of flex_end_line)
                 initial_state).1)
  = [{| f_address := U "001234567"; f_message := JStr (U "WORLD");
        f_datetime := 1496577605; f_source := JStr (U "TEST") |}].
Proof.
  rewrite (proj1 (completion_without_fragment sample_config sample_world
                    (event_of flex_end_line) initial_state
                    (U "001234567") (U "WORLD")
                    ltac:(vm_compute; reflexivity) ltac:(reflexivity)
                    ltac:(vm_compute; lia) ltac:(discriminate))).
  vm_compute. reflexivity.
Defined.

Lemma completion_discards_fragment_witness :
  frag (on_line sample_config sample_world (event_of flex_start_line)
          initial_state).1 !! U "001234567" = Some (U "HELLO")
  /\ sent (trace (read_lines sample_config sample_world
                    [event_of flex_start_line; event_of flex_blank_end_line]
                    initial_state).1) = []
  /\ frag (read_lines sample_config sample_world
             [event_of flex_start_line; event_of flex_blank_end_line]
             initial_state).1 !! U "001234567" = None.
Proof.
  split; [vm_compute; reflexivity|].
  destruct (completion_discards_fragment sample_config sample_world
              (event_of flex_blank_end_line)
              (on_line sample_config sample_world (event_of flex_start_line)
                 initial_state).1
              (U "001234567") [])
    as [S F].
  - vm_compute. reflexivity.
  - by right.
  - rewrite read_lines_foldl. cbn [foldl fst]. split; [|exact F].
    rewrite S. vm_compute. reflexivity.
Defined.

Lemma flex_without_text_witness :
  on_line sample_config sample_world (event_of flex_tone_line) initial_state
  = (record (Console (LoggedLine (U "2017-06-04 12:00:05") (U flex_tone_line)))
       initial_state, Normal tt)
  /\ on_line sample_config sample_world (event_of flex_empty_line) initial_state
     = (record (Console (LoggedLine (U "2017-06-04 12:00:05") (U flex_empty_line)))
          (record (Console (FailedFlexMessage (U flex_empty_line))) initial_state),
        Normal tt).
Proof.
  split.
  - apply (proj1 (flex_without_text sample_config sample_world
                    (event_of flex_tone_line) initial_state (U "007654321")
                    ltac:(vm_compute; reflexivity) ltac:(vm_compute; reflexivity))).
    vm_compute. reflexivity.
  - apply (proj2 (flex_without_text sample_config sample_world
                    (event_of flex_empty_line) initial_state (U "0012345")
                    ltac:(vm_compute; reflexivity) ltac:(vm_compute; reflexivity)));
      vm_compute; reflexivity.
Defined.

Lemma eas_without_configuration_witness :
  on_line bare_config sample_world (event_of eas_line) initial_state
  = (record (Console (ErrorValue TypeError))
       (record (Console (ErrorProcessingLine (U eas_line))) initial_state),
     Normal tt).
Proof.
  apply (eas_without_configuration bare_config sample_world (event_of eas_line)
           initial_state); vm_compute; reflexivity.
Defined.

Lemma eas_alert_form_witness :
  sent (trace (on_line sample_config (eas_world (JStr (U "012345")))
                 (event_of eas_line) initial_state).1)
  = [{| f_address := U "012345-RWT"; f_message := JStr (U "Test message");
        f_datetime := 1496577605; f_source := JStr (U "TEST") |}].
Proof.
  rewrite (eas_alert_form sample_config (eas_world (JStr (U "012345")))
             (event_of eas_line) initial_state
             {| excludeEvents := JObject; includeFIPS := JObject;
                addressAddType := JBool true |}
             {| LLLL_ORG := JStr (U "012345"); type_ := JStr (U "RWT");
                MESSAGE := JStr (U "Test message") |}
             (U "012345")).
  - vm_compute. reflexivity.
  - vm_compute. reflexivity.
  - reflexivity.
  - reflexivity.
  - reflexivity.
  - reflexivity.
  - vm_compute. lia.
Defined.

Lemma eas_missing_organisation_witness :
  on_line plain_eas_config (eas_world JUndefined) (event_of eas_line) initial_state
  = (record (Console (ErrorValue TypeError))
       (record (Console (ErrorProcessingLine (U eas_line))) initial_state),
     Normal tt)
  /\ sent (trace (on_line sample_config (eas_world JUndefined)
                    (event_of eas_line) initial_state).1)
     = [{| f_address := U "undefined-RWT"; f_message := JStr (U "Test message");
           f_datetime := 1496577605; f_source := JStr (U "TEST") |}].
Proof.
  split.
  - apply (proj1 (eas_missing_organisation plain_eas_config (eas_world JUndefined)
                    (event_of eas_line) initial_state
                    {| excludeEvents := JObject; includeFIPS := JObject;
                       addressAddType := JBool false |}
                    {| LLLL_ORG := JUndefined; type_ := JStr (U "RWT");
                       MESSAGE := JStr (U "Test message") |}
                    ltac:(vm_compute; reflexivity) eq_refl eq_refl eq_refl)).
    reflexivity.
  - rewrite (proj2 (eas_missing_organisation sample_config (eas_world JUndefined)
                      (event_of eas_line) initial_state
                      {| excludeEvents := JObject; includeFIPS := JObject;
                         addressAddType := JBool true |}
                      {| LLLL_ORG := JUndefined; type_ := JStr (U "RWT");
                         MESSAGE := JStr (U "Test message") |}
                      ltac:(vm_compute; reflexivity) eq_refl eq_refl eq_refl)
               eq_refl eq_refl).
    reflexivity.
Defined.

(** ** Whole runs *)

Section LogsOnly.

Lemma logs_only_ret {A} (a : A) : logs_only (mret a).
Proof.
  intros st st' c H. unfold_M. invert_pairs. exists [].
  split; [by rewrite app_nil_r|discriminate].
Qed.

Lemma logs_only_throw {A} e : logs_only (@throw A e).
Proof.
  intros st st' c H. unfold_M. invert_pairs. exists [].
  split; [by rewrite app_nil_r|discriminate].
Qed.

Lemma logs_only_console entry : logs_only (console entry).
Proof.
  intros st st' c H. unfold_M. invert_pairs. exists [entry].
  split; [done|discriminate].
Qed.

Lemma logs_only_console_return {A} entry :
  logs_only (console entry ;; @return_ A).
Proof.
  intros st st' c H. unfold_M. invert_pairs. exists [entry]. split; done.
Qed.

Lemma logs_only_frag_set a t : logs_only (frag_set a t).
Proof.
  intros st st' c H. unfold_M. invert_pairs. exists [].
  split; [by rewrite app_nil_r|discriminate].
Qed.

Lemma logs_only_frag_get a : logs_only (frag_get a).
Proof.
  intros st st' c H. unfold_M. invert_pairs. exists [].
  split; [by rewrite app_nil_r|discriminate].
Qed.

Lemma logs_only_frag_delete a : logs_only (frag_delete a).
Proof.
  intros st st' c H. unfold_M. invert_pairs. exists [].
  split; [by rewrite app_nil_r|discriminate].
Qed.

Lemma logs_only_bind {A B} (m : M A) (f : A -> M B) :
  logs_only m -> (forall a, logs_only (f a)) -> logs_only (m ≫= f).
Proof.
  intros Hm Hf st st' c H. unfold mbind, M_bind in H.
  destruct (m st) as [st1 [a| |e]] eqn:E;
    destruct (Hm _ _ _ E) as (es1 & T1 & R1).
  - destruct (Hf a _ _ _ H) as (es2 & T2 & R2).
    exists (es1 ++ es2). split.
    + by rewrite T2, T1, map_app, app_assoc.
    + intros Hc. specialize (R2 Hc). by destruct es1, es2.
  - invert_pairs. exists es1. auto.
  - invert_pairs. exists es1. split; [done|discriminate].
Qed.

End LogsOnly.

Ltac logs_step :=
  first
    [ apply logs_only_console_return
    | apply logs_only_ret | apply logs_only_throw | apply logs_only_console
    | apply logs_only_frag_set | apply logs_only_frag_get
    | apply logs_only_frag_delete
    | apply logs_only_bind; [ | intros ? ]
    | match goal with
      | |- logs_only (match ?x with _ => _ end) => destruct x
      | |- logs_only (let '(_, _) := ?x in _) => destruct x
      end ].

Section Runs.

Variable cfg : config.
Variable w : world.

Lemma logs_only_decode ev : logs_only (decode cfg w ev).
Proof.
  rewrite decode_classify.
  destruct (classify (ev_line ev));
    unfold decoder, pocsag, flex, eas, non_matching; repeat logs_step.
Qed.

(** X19. What one line adds to the trace: console entries, at least
    one, and after them at most one call of [sendPage], with [retries] 0:
    every line leaves a record on the console, and a message is logged
    before it is sent. *)
Theorem line_trace_shape (ev : line_event) (st : state) :
  exists entries, entries <> []
    /\ (trace (on_line cfg w ev st).1 = trace st ++ map Console entries
        \/ exists f, trace (on_line cfg w ev st).1
                     = trace st ++ map Console entries ++ [CallSendPage f 0]).
Proof.
  destruct (decode cfg w ev st) as [st1 [vars| |e]] eqn:E;
    destruct (logs_only_decode ev _ _ _ E) as (es & T & R).
  - rewrite (on_line_decoded _ _ _ _ _ _ E).
    destruct (length_gt _ _) as [x|long]; [|destruct (long && _)]; cbn [fst record trace].
    + exists (es ++ [ErrorProcessingLine (ev_line ev); ErrorValue x]).
      split; [by destruct es|]. left.
      rewrite T, map_app, <- !app_assoc. reflexivity.
    + exists (es ++ [LoggedMessage (ev_time ev) (padDigits (l_address vars) 7)
                       (l_trimMessage vars)]).
      split; [by destruct es|]. right. eexists.
      rewrite T, map_app, <- !app_assoc. reflexivity.
    + exists (es ++ [LoggedLine (ev_time ev) (ev_line ev)]).
      split; [by destruct es|]. left. rewrite T, map_app, <- !app_assoc. reflexivity.
  - rewrite (on_line_returned _ _ _ _ _ E). exists es. split; [by apply R|]. by left.
  - rewrite (on_line_thrown _ _ _ _ _ _ E). cbn [fst record trace].
    exists (es ++ [ErrorProcessingLine (ev_line ev); ErrorValue e]).
    split; [by destruct es|]. left. rewrite T, map_app, <- !app_assoc. reflexivity.
Qed.

Lemma emitted_cases ev st :
  emitted cfg w ev st = []
  \/ exists vars, emitted cfg w ev st = [form_of cfg vars].
Proof.
  unfold emitted. destruct (decode cfg w ev st) as [st1 [vars| |e]]; auto.
  destruct (passes vars); eauto.
Qed.

(** X20. The forms of a whole run: at most one per line, each under
    the configured source and with an address of seven units or more. *)
Theorem run_forms (evs : list line_event) (st : state) :
  exists fs,
    sent (trace (read_lines cfg w evs st).1) = sent (trace st) ++ fs
    /\ (length fs <= length evs)%nat
    /\ Forall (fun f => f_source f = identifier cfg
                        /\ (7 <= length (f_address f))%nat) fs.
Proof.
  rewrite read_lines_foldl. cbn [fst]. revert st.
  induction evs as [|ev evs IH]; intros st; cbn [foldl].
  - exists []. rewrite app_nil_r. split; [done|]. split; [done|constructor].
  - destruct (IH (on_line cfg w ev st).1) as (fs & S & L & F).
    rewrite S, on_line_sent, <- app_assoc.
    destruct (emitted_cases ev st) as [->|[vars ->]].
    + exists fs. split; [done|]. split; [cbn; lia|done].
    + exists (form_of cfg vars :: fs). split; [done|]. split; [cbn; lia|].
      constructor; [|done]. split; [done|].
      unfold form_of, padDigits. cbn [f_address]. rewrite padStart_length. lia.
Qed.

Lemma frag_update_keys (line : jsstring) (store : gmap (jsstring) (jsstring)) :
  map_Forall (fun a _ => a <> [] /\ all_digits a) store ->
  map_Forall (fun a _ => a <> [] /\ all_digits a) (frag_update line store).
Proof.
  intros H. unfold frag_update.
  destruct (flex_frame line) as [[[a t] [| | |]]|] eqn:F; try done.
  - apply map_Forall_insert_2; [|done]. by eapply flex_frame_address.
  - by apply map_Forall_delete.
Qed.

(** X21. In a run that starts with the empty store, every key of the
    store is a non-empty string of digits. *)
Theorem frag_keys_are_digits (evs : list line_event) (a t : jsstring) :
  frag (read_lines cfg w evs initial_state).1 !! a = Some t ->
  a <> [] /\ all_digits a.
Proof.
  rewrite read_lines_foldl. cbn [fst].
  assert (I : forall st,
    map_Forall (fun a _ => a <> [] /\ all_digits a) (frag st) ->
    map_Forall (fun a _ => a <> [] /\ all_digits a)
      (frag (foldl (fun s ev => (on_line cfg w ev s).1) st evs))).
  { induction evs as [|ev evs IH]; intros st H; [done|].
    cbn [foldl]. apply IH. rewrite on_line_frag. by apply frag_update_keys. }
  intros H. eapply (I initial_state); [|exact H]. apply map_Forall_empty.
Qed.

(** X22. A stored fragment stays in the store, unchanged, across any
    lines that are no F or C frame for its address: nothing else evicts
    it. *)
Theorem fragment_persists (mids : list line_event) (st : state) (a : jsstring) :
  Forall (fun ev => touches a (ev_line ev) = false) mids ->
  frag (read_lines cfg w mids st).1 !! a = frag st !! a.
Proof.
  intros H. rewrite read_lines_foldl. cbn [fst]. by apply foldl_untouched.
Qed.

End Runs.

(** ** Global replacement *)

Section ReplaceClass.

Variable p : jschar -> bool.

(** The first match of a one-character class. *)
Lemma exec_from_class (s : jsstring) :
  forall i,
    (Forall (fun x => p x = false) s /\ exec_from (RClass p) i s = None)
    \/ exists pre x post,
         s = pre ++ x :: post /\ Forall (fun x => p x = false) pre /\ p x = true
         /\ exec_from (RClass p) i s
            = Some {| index := i + length pre; matched := [x];
                      groups := no_captures |}.
Proof.
  induction s as [|x s IH]; intros i; cbn [exec_from rmatch].
  - left. split; [constructor|done].
  - destruct (p x) eqn:P.
    + right. exists [], x, s. repeat split; [constructor|done|].
      cbn [length]. rewrite Nat.add_0_r.
      replace (S (length s) - length s)%nat with 1%nat by lia. done.
    + destruct (IH (S i)) as [[F E]|(pre & y & post & -> & F & Py & E)].
      * left. split; [by constructor|done].
      * right. exists (x :: pre), y, post.
        repeat split; [by constructor|done|]. rewrite E. cbn [length].
        by rewrite Nat.add_succ_r.
Qed.

Lemma per_unit_id rep s :
  Forall (fun x => p x = false) s -> flat_map (fun x => if p x then rep else [x]) s = s.
Proof.
  induction 1 as [|x s Hx _ IH]; [done|]. cbn.
  by rewrite Hx, IH.
Qed.

Lemma replace_all_fuel_class rep (fuel : nat) :
  forall s, (length s < fuel)%nat ->
  replace_all_fuel fuel (RClass p) rep s = flat_map (fun x => if p x then rep else [x]) s.
Proof.
  induction fuel as [|fuel IH]; intros s L; [lia|].
  cbn [replace_all_fuel]. unfold exec.
  destruct (exec_from_class s 0) as [[F E]|(pre & x & post & -> & F & Px & E)];
    rewrite E.
  - by rewrite per_unit_id.
  - assert (Lp : (length post < fuel)%nat)
      by (rewrite length_app in L; cbn [length] in L; lia).
    cbn [index matched length]. rewrite Nat.add_0_l.
    rewrite take_app_length, drop_app_add. cbn [drop]. rewrite drop_0.
    rewrite IH by done.
    rewrite flat_map_app, (per_unit_id rep pre F). cbn [flat_map]. by rewrite Px.
Qed.

Lemma replace_all_class rep s :
  replace_all (RClass p) rep s = flat_map (fun x => if p x then rep else [x]) s.
Proof. unfold replace_all. apply replace_all_fuel_class. lia. Qed.

End ReplaceClass.

(** ** Token stripping *)

(** A control token starts with ["<"]. *)
Lemma exec_from_suffix r s :
  forall i m, exec_from r i s = Some m ->
  exists pre s0 s1, s = pre ++ s0 /\ matches r s0 no_captures s1 (groups m).
Proof.
  induction s as [|x s IH]; intros i m H; cbn [exec_from] in H.
  - destruct (rmatch r [] no_captures _) as [[s1 c1]|] eqn:E; [|discriminate].
    apply rmatch_sound in E as (s1' & c1' & M & [= <- <-]).
    injection H as <-. eexists [], _, _. split; [reflexivity|eassumption].
  - destruct (rmatch r (x :: s) no_captures _) as [[s1 c1]|] eqn:E.
    + apply rmatch_sound in E as (s1' & c1' & M & [= <- <-]).
      injection H as <-. eexists [], _, _. split; [reflexivity|eassumption].
    + apply IH in H as (pre & s0 & s1 & -> & M). by exists (x :: pre), s0, s1.
Qed.

Lemma control_token_needs_bracket s :
  60 ∉ s -> exec CONTROL_TOKEN_REGEX s = None.
Proof.
  intros N. unfold exec. destruct (exec_from _ _ _) as [m|] eqn:E; [|done].
  apply exec_from_suffix in E as (pre & s0 & s1 & -> & M).
  unfold CONTROL_TOKEN_REGEX in M. cbn [seq] in M.
  inversion M as [| |? ? ? ? ? ? ? ? M1 _| | | | | |]; subst.
  inversion M1 as [? ? ? ? P| | | | | | | |]; subst.
  apply N.eqb_eq in P. cbn in P. subst.
  exfalso. apply N. apply elem_of_app. right. apply elem_of_cons. by left.
Qed.

(** X23. A text without ["<"], U+00C4 and U+00DC passes the stripping
    unchanged; whatever the text, no U+00C4 and no U+00DC is left in the
    result. *)
Theorem strip_tokens_spec (message : jsstring) :
  (60 ∉ message -> 196 ∉ message -> 220 ∉ message ->
   strip_tokens message = message)
  /\ (196 ∉ strip_tokens message) /\ (220 ∉ strip_tokens message).
Proof.
  unfold strip_tokens, A_UMLAUT_REGEX, U_UMLAUT_REGEX.
  rewrite !replace_all_class. split; [|split].
  - intros H1 H2 H3.
    assert (replace_all CONTROL_TOKEN_REGEX [] message = message) as ->.
    { unfold replace_all. cbn [replace_all_fuel].
      by rewrite control_token_needs_bracket. }
    rewrite (per_unit_id (N.eqb 196) (U "[") message).
    + apply per_unit_id. apply Forall_forall. intros x Hx.
      apply N.eqb_neq. by intros <-.
    + apply Forall_forall. intros x Hx. apply N.eqb_neq. by intros <-.
  - intros H. apply list_elem_of_In, in_flat_map in H as (x & Hx & H).
    destruct (N.eqb 220 x) eqn:E1.
    + cbn in H. destruct H as [H|[]]. discriminate.
    + destruct H as [->|[]]. apply in_flat_map in Hx as (y & _ & Hy).
      destruct (N.eqb 196 y) eqn:E2.
      * cbn in Hy. destruct Hy as [Hy|[]]. discriminate.
      * destruct Hy as [->|[]]. rewrite N.eqb_refl in E2. discriminate.
  - intros H. apply list_elem_of_In, in_flat_map in H as (x & _ & H).
    destruct (N.eqb 220 x) eqn:E1.
    + cbn in H. destruct H as [H|[]]. discriminate.
    + destruct H as [->|[]]. rewrite N.eqb_refl in E1. discriminate.
Qed.

Lemma frag_keys_are_digits_witness :
  U "001234567" <> [] /\ all_digits (U "001234567").
Proof.
  apply (frag_keys_are_digits sample_config sample_world
           [event_of flex_start_line] (U "001234567") (U "HELLO")).
  vm_compute. reflexivity.
Defined.

Lemma fragment_persists_witness :
  frag (read_lines sample_config sample_world
          [event_of flex_other_line; event_of pocsag_line]
          (on_line sample_config sample_world (event_of flex_start_line)
             initial_state).1).1 !! U "001234567"
  = Some (U "HELLO").
Proof.
  rewrite (fragment_persists sample_config sample_world
             [event_of flex_other_line; event_of pocsag_line]
             (on_line sample_config sample_world (event_of flex_start_line)
                initial_state).1 (U "001234567")).
  - vm_compute. reflexivity.
  - repeat constructor.
Defined.

Lemma strip_tokens_spec_witness :
  strip_tokens (U "TEST MESSAGE") = U "TEST MESSAGE".
Proof.
  apply (proj1 (strip_tokens_spec (U "TEST MESSAGE")));
    apply (bool_decide_unpack _); vm_compute; exact I.
Defined.
